(** * MIDORI2 loader and summary statistics: a shallow embedding

    This development embeds [loader.py] and the statistics function of
    [eda.py] and proves properties of the embedded
    functions.

    Conventions of the embedding.
    - A Python [str] is a [string]; a character is a code point below 256
      (the [ascii] type read as U+0000..U+00FF).  On that range the
      embedding follows CPython exactly: [str.strip] removes the characters
      for which [str.isspace] holds, [\d] is [0-9], [.] is every character
      but the line feed, [str.lower] maps [A-Z] and the upper-case letters
      of the Latin-1 block.
    - A text file is the list of the lines that iterating over it yields.
    - A regular expression is written with backtracking combinators that
      try the alternatives in the order of Python's [re] engine.
    - A [pandas.DataFrame] is its list of column labels with its list of
      rows; an operation that raises is a function into [result]. *)

From Stdlib Require Import ZArith QArith Ascii String.
From stdpp Require Import base option list strings gmap sorting.

Local Open Scope string_scope.

#[local] Arguments String.append !s1 s2 : simpl nomatch.

(** ** Characters and the [str] methods the loader calls *)

Module Str.

(** The code point of a character. *)
Definition code (c : ascii) : N := N_of_ascii c.

(** [str.isspace] on one character. *)
Definition isspace (c : ascii) : bool :=
  let n := code c in
  ((9 <=? n) && (n <=? 13) || (28 <=? n) && (n <=? 32)
   || (n =? 133) || (n =? 160))%N.

(** The class [\d]. *)
Definition isdigit (c : ascii) : bool :=
  let n := code c in ((48 <=? n) && (n <=? 57))%N.

(** The characters below U+0100 that [str.lower] changes: the upper-case
    letters, each 32 below its lower-case form.  Above U+0100 some
    upper-case letters have no lower-case form and [str.lower] leaves them
    as they are; they are outside the embedding. *)
Definition isupper (c : ascii) : bool :=
  let n := code c in
  ((65 <=? n) && (n <=? 90)
   || (192 <=? n) && (n <=? 222) && negb (n =? 215))%N.

(** [c.lower()] *)
Definition lower_char (c : ascii) : ascii :=
  if isupper c then ascii_of_N (code c + 32) else c.

(** [f] applied to every character. *)
Fixpoint map_chars (f : ascii -> ascii) (s : string) : string :=
  match s with
  | EmptyString => EmptyString
  | String c s' => String (f c) (map_chars f s')
  end.

(** [s.lower()] *)
Definition lower (s : string) : string := map_chars lower_char s.

(** [s.replace(a, b)] for one-character [a] and [b]. *)
Definition replace (a b : ascii) (s : string) : string :=
  map_chars (fun c => if Ascii.eqb c a then b else c) s.

(** [s.lstrip(chars)] and [s.rstrip(chars)], the set of characters as a
    predicate. *)
Fixpoint lstrip_by (p : ascii -> bool) (s : string) : string :=
  match s with
  | EmptyString => EmptyString
  | String c s' => if p c then lstrip_by p s' else s
  end.

Fixpoint rstrip_by (p : ascii -> bool) (s : string) : string :=
  match s with
  | EmptyString => EmptyString
  | String c s' =>
      match rstrip_by p s' with
      | EmptyString => if p c then EmptyString else String c EmptyString
      | r => String c r
      end
  end.

(** [s.strip()] *)
Definition strip (s : string) : string :=
  rstrip_by isspace (lstrip_by isspace s).

(** [s.split(sep)] for a one-character separator: never the empty list. *)
Fixpoint split (sep : ascii) (s : string) : list string :=
  match s with
  | EmptyString => [EmptyString]
  | String c s' =>
      if Ascii.eqb c sep then EmptyString :: split sep s'
      else match split sep s' with
           | h :: t => String c h :: t
           | [] => [String c EmptyString]
           end
  end.

(** [s.startswith(c)] for a one-character prefix. *)
Definition startswith (c : ascii) (s : string) : bool :=
  match s with
  | String c' _ => Ascii.eqb c' c
  | EmptyString => false
  end.

(** [s[1:]] *)
Definition tail (s : string) : string :=
  match s with
  | String _ s' => s'
  | EmptyString => EmptyString
  end.

(** [''.join(l)] *)
Fixpoint join (l : list string) : string :=
  match l with
  | [] => EmptyString
  | s :: l' => s +:+ join l'
  end.

(** Every character of [s] satisfies [p]. *)
Fixpoint all (p : ascii -> bool) (s : string) : bool :=
  match s with
  | EmptyString => true
  | String c s' => p c && all p s'
  end.

(** Some character of [s] satisfies [p]. *)
Fixpoint any (p : ascii -> bool) (s : string) : bool :=
  match s with
  | EmptyString => false
  | String c s' => p c || any p s'
  end.

(** [not s] *)
Definition is_empty (s : string) : bool :=
  match s with EmptyString => true | _ => false end.

End Str.

(** ** Backtracking combinators for the two regular expressions *)

Module Re.

(** [x+] (greedy) followed by the rest of the pattern [k]: the longest run
    first, then one character less at a time.  [acc] is the text the
    quantifier has taken so far; [k] receives the text taken and the
    remaining input. *)
Fixpoint plus_greedy {A} (cls : ascii -> bool) (acc s : string)
    (k : string -> string -> option A) : option A :=
  match s with
  | EmptyString => None
  | String c s' =>
      if cls c then
        let acc' := acc +:+ String c EmptyString in
        match plus_greedy cls acc' s' k with
        | Some r => Some r
        | None => k acc' s'
        end
      else None
  end.

(** [x+?] (lazy) followed by [k]: the shortest run first, then one
    character more at a time. *)
Fixpoint plus_lazy {A} (cls : ascii -> bool) (acc s : string)
    (k : string -> string -> option A) : option A :=
  match s with
  | EmptyString => None
  | String c s' =>
      if cls c then
        let acc' := acc +:+ String c EmptyString in
        match k acc' s' with
        | Some r => Some r
        | None => plus_lazy cls acc' s' k
        end
      else None
  end.

(** One literal character followed by [k]. *)
Definition lit {A} (c : ascii) (s : string) (k : string -> option A)
    : option A :=
  match s with
  | String c' s' => if Ascii.eqb c' c then k s' else None
  | EmptyString => None
  end.

(** [$] without [re.MULTILINE]: at the end of the input, or before a line
    feed that ends the input. *)
Definition at_end (s : string) : bool :=
  match s with
  | EmptyString => true
  | String c EmptyString => Ascii.eqb c "010"%char
  | _ => false
  end.

(** The class [[^.]]: every character but the dot, the line feed included. *)
Definition not_dot (c : ascii) : bool := negb (Ascii.eqb c "."%char).

(** The class [.] without [re.DOTALL]: every character but the line feed. *)
Definition dot (c : ascii) : bool := negb (Ascii.eqb c "010"%char).

(** The class [[kgpcofs]]. *)
Definition rank_letter (c : ascii) : bool :=
  Str.any (Ascii.eqb c) "kgpcofs".

(** [re.match(r'^([^.]+\.\d+)', s)]: group 1 of the match, if any. *)
Definition match_id (s : string) : option string :=
  plus_greedy not_dot "" s (fun acc r1 =>
    lit "."%char r1 (fun r2 =>
      plus_greedy Str.isdigit "" r2 (fun ver _ =>
        Some (acc +:+ "." +:+ ver)))).

(** [re.match(r'^([kgpcofs])__(.+?)_\d+$', s)]: groups 1 and 2 of the
    match, if any. *)
Definition match_rank (s : string) : option (ascii * string) :=
  match s with
  | EmptyString => None
  | String p r0 =>
      if rank_letter p then
        lit "_"%char r0 (fun r1 =>
          lit "_"%char r1 (fun r2 =>
            plus_lazy dot "" r2 (fun nombre r3 =>
              lit "_"%char r3 (fun r4 =>
                plus_greedy Str.isdigit "" r4 (fun _ r5 =>
                  if at_end r5 then Some (p, nombre) else None)))))
      else None
  end.

End Re.

(** ** [loader.py] *)

(** [extraer_id_base] *)
Definition extraer_id_base (identificador : string) : string :=
  let id_limpio := Str.lstrip_by (Ascii.eqb ">"%char) identificador in
  match Re.match_id id_limpio with
  | Some g1 => g1
  | None => hd EmptyString (Str.split "."%char id_limpio)
  end.

(** [normalizar_nombre_taxonomico] *)
Definition normalizar_nombre_taxonomico (nombre : string) : string :=
  if Str.is_empty nombre then EmptyString
  else Str.strip (Str.replace " "%char "_"%char (Str.lower nombre)).

(** The body of the loop of [parsear_taxonomia]: one segment updates the
    dictionary. *)
Definition parsear_parte (normalizar : bool) (taxonomia : gmap string string)
    (parte : string) : gmap string string :=
  match Re.match_rank parte with
  | Some (prefijo, nombre) =>
      let nombre :=
        if normalizar then normalizar_nombre_taxonomico nombre else nombre in
      if Ascii.eqb prefijo "k"%char then <["kingdom" := nombre]> taxonomia
      else if Ascii.eqb prefijo "p"%char then <["phylum" := nombre]> taxonomia
      else if Ascii.eqb prefijo "c"%char then <["class" := nombre]> taxonomia
      else if Ascii.eqb prefijo "o"%char then <["order" := nombre]> taxonomia
      else if Ascii.eqb prefijo "f"%char then <["family" := nombre]> taxonomia
      else if Ascii.eqb prefijo "g"%char then <["genus" := nombre]> taxonomia
      else if Ascii.eqb prefijo "s"%char then <["species" := nombre]> taxonomia
      else taxonomia
  | None => taxonomia
  end.

(** [parsear_taxonomia] *)
Definition parsear_taxonomia (taxonomia_str : string) (normalizar : bool)
    : gmap string string :=
  let partes := Str.split ";"%char taxonomia_str in
  foldl (parsear_parte normalizar) ∅ partes.

(** The rows the loaders build, one record per dictionary appended to
    [datos]. *)
Record SequenceRecord := mkSequence {
  s_sequence_id : string;
  s_dna_sequence : string
}.

Record LineageRecord := mkLineage {
  l_sequence_id : string;
  l_kingdom : string;
  l_phylum : string;
  l_class : string;
  l_order : string;
  l_family : string;
  l_genus : string;
  l_species : string
}.

(** A row of the merged frame. *)
Record JoinedRecord := mkJoined {
  sequence_id : string;
  dna_sequence : string;
  kingdom : string;
  phylum : string;
  class : string;
  order : string;
  family : string;
  genus : string;
  species : string
}.

(** What a call returns or the [KeyError] it raises. *)
Inductive result (A : Type) : Type :=
  | Ok (a : A)
  | KeyError (label : string).
Arguments Ok {A} a.
Arguments KeyError {A} label.

(** Sequencing: the first [KeyError] ends the computation. *)
Definition bind {A B} (r : result A) (f : A -> result B) : result B :=
  match r with
  | Ok a => f a
  | KeyError l => KeyError l
  end.

Notation "'let*' x ':=' r 'in' k" := (bind r (fun x => k))
  (at level 10, x name, r at level 100, k at level 200).

(** A [pandas.DataFrame]: the column labels and the rows. *)
Record DataFrame (A : Type) := mkFrame {
  columns : list string;
  rows : list A
}.
Arguments mkFrame {A} columns rows.
Arguments columns {A} d.
Arguments rows {A} d.

(** [pd.DataFrame(datos)] for a list of dictionaries that all have the keys
    [keys]: the frame of an empty list has no column. *)
Definition DataFrame_of {A} (keys : list string) (datos : list A)
    : DataFrame A :=
  match datos with
  | [] => mkFrame [] []
  | _ => mkFrame keys datos
  end.

(** [len(df)] *)
Definition len {A} (df : DataFrame A) : nat := length (rows df).

(** [df[label]], the column read through the field [campo]. *)
Definition getitem {A} (df : DataFrame A) (label : string)
    (campo : A -> string) : result (list string) :=
  if bool_decide (label ∈ columns df) then Ok (map campo (rows df))
  else KeyError label.

(** The keys of the dictionaries [cargar_taxon] appends. *)
Definition taxon_columns : list string :=
  ["sequence_id"; "kingdom"; "phylum"; "class"; "order"; "family"; "genus";
   "species"].

(** The keys of the dictionaries [cargar_fasta] appends. *)
Definition fasta_columns : list string := ["sequence_id"; "dna_sequence"].

(** [taxonomia.get(key, '')] *)
Definition get (taxonomia : gmap string string) (key : string) : string :=
  default EmptyString (taxonomia !! key).

(** The body of the loop of [cargar_taxon]. *)
Definition cargar_taxon_linea (normalizar : bool)
    (datos : list LineageRecord) (linea : string) : list LineageRecord :=
  let linea := Str.strip linea in
  if Str.is_empty linea then datos
  else
    match Str.split "009"%char linea with
    | id_completo :: taxonomia_str :: _ =>
        let id_base := extraer_id_base id_completo in
        let taxonomia := parsear_taxonomia taxonomia_str normalizar in
        datos ++ [mkLineage id_base
                    (get taxonomia "kingdom") (get taxonomia "phylum")
                    (get taxonomia "class") (get taxonomia "order")
                    (get taxonomia "family") (get taxonomia "genus")
                    (get taxonomia "species")]
    | _ => datos
    end.

(** The rows of [cargar_taxon]: the loop over the lines of the file. *)
Definition cargar_taxon_datos (archivo_taxon : list string)
    (normalizar : bool) : list LineageRecord :=
  foldl (cargar_taxon_linea normalizar) [] archivo_taxon.

(** [cargar_taxon], the file given by its lines. *)
Definition cargar_taxon (archivo_taxon : list string) (normalizar : bool)
    : DataFrame LineageRecord :=
  DataFrame_of taxon_columns (cargar_taxon_datos archivo_taxon normalizar).

(** The three variables of the loop of [cargar_fasta]. *)
Record fasta_state := mkFasta {
  datos : list SequenceRecord;
  id_actual : option string;
  secuencia_actual : list string
}.

(** The record [cargar_fasta] appends when an identifier is current. *)
Definition guardar (st : fasta_state) : list SequenceRecord :=
  match id_actual st with
  | Some id => datos st ++ [mkSequence id (Str.join (secuencia_actual st))]
  | None => datos st
  end.

(** The body of the loop of [cargar_fasta]. *)
Definition cargar_fasta_linea (st : fasta_state) (linea : string)
    : fasta_state :=
  let linea := Str.strip linea in
  if Str.startswith ">"%char linea then
    let id_completo := Str.tail linea in
    mkFasta (guardar st) (Some (extraer_id_base id_completo)) []
  else
    match id_actual st with
    | Some _ =>
        mkFasta (datos st) (id_actual st) (secuencia_actual st ++ [linea])
    | None => st
    end.

(** The variables before the loop. *)
Definition inicio : fasta_state := mkFasta [] None [].

(** The rows of [cargar_fasta]: the loop, then the last record. *)
Definition cargar_fasta_datos (archivo_fasta : list string)
    : list SequenceRecord :=
  guardar (foldl cargar_fasta_linea inicio archivo_fasta).

(** [cargar_fasta], the file given by its lines. *)
Definition cargar_fasta (archivo_fasta : list string)
    : DataFrame SequenceRecord :=
  DataFrame_of fasta_columns (cargar_fasta_datos archivo_fasta).

(** One row of the merge: the columns of the left row, then those of the
    right row without the key. *)
Definition merge_row (s : SequenceRecord) (l : LineageRecord) : JoinedRecord :=
  mkJoined (s_sequence_id s) (s_dna_sequence s)
    (l_kingdom l) (l_phylum l) (l_class l) (l_order l) (l_family l)
    (l_genus l) (l_species l).

(** The rows of the right table that pair with [s]. *)
Definition matches (right : list LineageRecord) (s : SequenceRecord)
    : list LineageRecord :=
  filter (fun l => l_sequence_id l = s_sequence_id s) right.

(** The rows of an inner merge on [sequence_id]: for each left row in
    turn, its pairs with the matching right rows. *)
Definition merge_rows (left : list SequenceRecord)
    (right : list LineageRecord) : list JoinedRecord :=
  flat_map (fun s => map (merge_row s) (matches right s)) left.

(** [pd.merge(left, right, on='sequence_id', how='inner')]: a [KeyError]
    when a frame lacks the key column; otherwise one row for every pair of
    a left and a right row with equal keys, in the order of the left
    rows. *)
Definition merge (left : DataFrame SequenceRecord)
    (right : DataFrame LineageRecord) : result (DataFrame JoinedRecord) :=
  if negb (bool_decide ("sequence_id" ∈ columns left)) then
    KeyError "sequence_id"
  else if negb (bool_decide ("sequence_id" ∈ columns right)) then
    KeyError "sequence_id"
  else
    Ok (mkFrame
          (columns left ++ filter (fun c => c ≠ "sequence_id") (columns right))
          (merge_rows (rows left) (rows right))).

(** [cargar_dataset], the two files given by their lines; the progress
    messages it prints are left out. *)
Definition cargar_dataset (archivo_taxon archivo_fasta : list string)
    (normalizar : bool) : result (DataFrame JoinedRecord) :=
  let df_taxon := cargar_taxon archivo_taxon normalizar in
  let df_fasta := cargar_fasta archivo_fasta in
  merge df_fasta df_taxon.

(** ** [eda.py]: the summary statistics *)

(** A number a statistic returns.  Floating point is left out: a finite
    value is the exact rational, the square root that ends [std] is kept
    as a constructor, and [NaN] is pandas' marker for an undefined
    statistic. *)
Inductive numero : Type :=
  | NaN
  | Num (q : Q)
  | Raiz (q : Q).

(** [serie.str.len()] *)
Definition str_len (serie : list string) : list Z :=
  map (fun s => Z.of_nat (String.length s)) serie.

(** [serie.nunique()] on a column of strings. *)
Definition nunique (serie : list string) : nat :=
  length (remove_dups serie).

(** The sum and the exact mean of the values. *)
Definition suma (longitudes : list Z) : Z := foldr Z.add 0%Z longitudes.

Definition promedio (longitudes : list Z) : Q :=
  Qred (Qmake (suma longitudes) (Pos.of_nat (length longitudes))).

(** [longitudes.mean()] *)
Definition mean (longitudes : list Z) : numero :=
  match longitudes with
  | [] => NaN
  | _ => Num (promedio longitudes)
  end.

(** The values in increasing order, by insertion. *)
Fixpoint insertar (x : Z) (l : list Z) : list Z :=
  match l with
  | [] => [x]
  | y :: l' => if (x <=? y)%Z then x :: l else y :: insertar x l'
  end.

Definition ordenar (l : list Z) : list Z := foldr insertar [] l.

(** [longitudes.median()]: the middle of the sorted values, or the mean
    of the two middle ones. *)
Definition median (longitudes : list Z) : numero :=
  let n := length longitudes in
  let l := ordenar longitudes in
  match n with
  | O => NaN
  | _ =>
      if Nat.even n then
        Num (Qred (Qmake (nth (n / 2 - 1) l 0%Z + nth (n / 2) l 0%Z) 2))
      else Num (inject_Z (nth (n / 2) l 0%Z))
  end.

(** [longitudes.min()] and [longitudes.max()] *)
Definition min (longitudes : list Z) : numero :=
  match longitudes with
  | [] => NaN
  | x :: l => Num (inject_Z (foldr Z.min x l))
  end.

Definition max (longitudes : list Z) : numero :=
  match longitudes with
  | [] => NaN
  | x :: l => Num (inject_Z (foldr Z.max x l))
  end.

(** The sum of the squared deviations from the mean. *)
Definition desviaciones (longitudes : list Z) : Q :=
  let m := promedio longitudes in
  foldr (fun x acc => (inject_Z x - m) * (inject_Z x - m) + acc)%Q 0%Q
    longitudes.

(** [longitudes.std()], with the default [ddof=1]: the divisor is the
    number of values minus [ddof], and the result is [NaN] when the number
    of values is at most [ddof].  The value is the exact one: the rounding
    of the binary64 sums of pandas, which makes the last bits depend on
    the order of the values, is outside the embedding. *)
Definition std (longitudes : list Z) : numero :=
  let ddof := 1%nat in
  let n := length longitudes in
  if (n <=? ddof)%nat then NaN
  else Raiz (Qred (desviaciones longitudes / inject_Z (Z.of_nat (n - ddof)))).

(** The dictionary [calcular_estadisticas] returns. *)
Record Estadisticas := mkEstadisticas {
  total_registros : nat;
  secuencias_unicas : nat;
  especies_unicas : nat;
  generos_unicos : nat;
  familias_unicas : nat;
  ordenes_unicos : nat;
  clases_unicas : nat;
  filos_unicos : nat;
  reinos_unicos : nat;
  longitud_promedio : numero;
  longitud_mediana : numero;
  longitud_min : numero;
  longitud_max : numero;
  longitud_std : numero
}.

(** [calcular_estadisticas]: the columns are read in the order of the
    source, and the first one missing raises. *)
Definition calcular_estadisticas (df : DataFrame JoinedRecord)
    : result Estadisticas :=
  let* c_dna := getitem df "dna_sequence" dna_sequence in
  let longitudes := str_len c_dna in
  let* c_id := getitem df "sequence_id" sequence_id in
  let* c_species := getitem df "species" species in
  let* c_genus := getitem df "genus" genus in
  let* c_family := getitem df "family" family in
  let* c_order := getitem df "order" order in
  let* c_class := getitem df "class" class in
  let* c_phylum := getitem df "phylum" phylum in
  let* c_kingdom := getitem df "kingdom" kingdom in
  Ok (mkEstadisticas (len df) (nunique c_id) (nunique c_species)
        (nunique c_genus) (nunique c_family) (nunique c_order)
        (nunique c_class) (nunique c_phylum) (nunique c_kingdom)
        (mean longitudes) (median longitudes) (min longitudes)
        (max longitudes) (std longitudes)).

(** The labels of a merged frame. *)
Definition joined_columns : list string :=
  ["sequence_id"; "dna_sequence"; "kingdom"; "phylum"; "class"; "order";
   "family"; "genus"; "species"].

(** ** Vocabulary of the properties *)

(** The quantifier cannot take the first character of [s]. *)
Definition blocked (cls : ascii -> bool) (s : string) : bool :=
  match s with
  | String c _ => negb (cls c)
  | EmptyString => true
  end.

(** The segment [f"{rank}__{name}_{digits}"]. *)
Definition segmento (rank : ascii) (name digits : string) : string :=
  String rank ("__" +:+ name +:+ "_" +:+ digits).

(** The key [parsear_taxonomia] writes for a rank letter. *)
Definition clave (rank : ascii) : string :=
  if Ascii.eqb rank "k" then "kingdom"
  else if Ascii.eqb rank "p" then "phylum"
  else if Ascii.eqb rank "c" then "class"
  else if Ascii.eqb rank "o" then "order"
  else if Ascii.eqb rank "f" then "family"
  else if Ascii.eqb rank "g" then "genus"
  else "species".

(** The name ends with an underscore and a non-empty run of digits. *)
Fixpoint sufijo_ambiguo (name : string) : bool :=
  match name with
  | EmptyString => false
  | String c s =>
      Ascii.eqb c "_" && negb (Str.is_empty s) && Str.all Str.isdigit s
      || sufijo_ambiguo s
  end.

(** The line feed, U+000A. *)
Definition line_feed : ascii := "010"%char.

(** A name with a line feed in it. *)
Definition nombre_con_salto : string :=
  "Homo" +:+ String line_feed "sapiens".

(** A header line: after [strip] it starts with the marker. *)
Definition es_cabecera (linea : string) : bool :=
  Str.startswith ">" (Str.strip linea).

(** The identifier [cargar_fasta] takes from a header line. *)
Definition id_cabecera (linea : string) : string :=
  extraer_id_base (Str.tail (Str.strip linea)).

(** No line of [lineas] is a header line. *)
Definition sin_cabecera (lineas : list string) : Prop :=
  Forall (fun l => es_cabecera l = false) lineas.

(** The record of the block that the header [h] opens and the lines
    [body] fill. *)
Definition registro (h : string) (body : list string) : SequenceRecord :=
  mkSequence (id_cabecera h) (Str.join (map Str.strip body)).

(** [r] is the record of a block of [lineas]: a header, the lines up to
    the next header or to the end of the file. *)
Definition bloque (lineas : list string) (r : SequenceRecord) : Prop :=
  exists (pre : list string) (h : string) (body rest : list string),
    lineas = (pre ++ h :: body ++ rest)%list
    /\ es_cabecera h = true
    /\ sin_cabecera body
    /\ (rest = [] \/ exists h' rest', rest = h' :: rest' /\ es_cabecera h' = true)
    /\ r = registro h body.

(** A record already in [datos]: its block is followed by a header. *)
Definition cerrado (lineas : list string) (r : SequenceRecord) : Prop :=
  exists (pre : list string) (h : string) (body rest : list string)
         (h' : string),
    lineas = (pre ++ h :: body ++ h' :: rest)%list
    /\ es_cabecera h = true /\ sin_cabecera body /\ es_cabecera h' = true
    /\ r = registro h body.

(** The block being read: it runs to the end of the lines read so far. *)
Definition abierto (lineas : list string) (st : fasta_state) : Prop :=
  match id_actual st with
  | Some id =>
      exists (pre : list string) (h : string) (body : list string),
        lineas = (pre ++ h :: body)%list
        /\ es_cabecera h = true /\ sin_cabecera body
        /\ id = id_cabecera h
        /\ secuencia_actual st = map Str.strip body
  | None => True
  end.

(** The invariant of the loop of [cargar_fasta] after the lines [lineas]. *)
Definition fasta_inv (lineas : list string) (st : fasta_state) : Prop :=
  (forall r, r ∈ datos st -> cerrado lineas r) /\ abierto lineas st.

(** The number of rows of a table that have the key [k]. *)
Definition con_id {A} (campo : A -> string) (k : string) (l : list A) : nat :=
  length (filter (fun x => campo x = k) l).

(** The tabulation, U+0009, that separates the fields of a lineage line. *)
Definition tab : string := String "009" "".

(** A lineage file with two lines for one identifier, and one line for an
    identifier that has no sequence. *)
Definition taxon_ejemplo : list string :=
  ["X1.1.<1.>4" +:+ tab +:+ "k__Animalia_1;s__Homo sapiens_9";
   "X1.1.<1.>4" +:+ tab +:+ "k__Plantae_2";
   "Y2.1" +:+ tab +:+ "k__Fungi_3"].

(** A sequence file with one block for the identifier of the two lineage
    lines, and one block without lineage. *)
Definition fasta_ejemplo : list string :=
  [">X1.1.<1.>4"; "ACGT"; ">Z3.1"; "GG"].

(** The frame has the columns of a merged frame. *)
Definition con_columnas (df : DataFrame JoinedRecord) : Prop :=
  forall c, c ∈ joined_columns -> c ∈ columns df.

(** The lengths [calcular_estadisticas] takes its statistics of. *)
Definition longitudes_de (df : DataFrame JoinedRecord) : list Z :=
  str_len (map dna_sequence (rows df)).

(** A joined row with the given identifier and sequence. *)
Definition fila_ejemplo (id dna : string) : JoinedRecord :=
  mkJoined id dna "animalia" "chordata" "" "" "" "homo" "homo_sapiens".

(** A merged frame of two rows, with sequences of 2 and 4 bases. *)
Definition df_ejemplo : DataFrame JoinedRecord :=
  mkFrame joined_columns [fila_ejemplo "A.1" "AC"; fila_ejemplo "B.1" "ACGT"].

(** The string does not start with the marker [>]. *)
Definition sin_marca (s : string) : bool := negb (Str.startswith ">" s).

(** The name [parsear_taxonomia] stores for a captured name. *)
Definition valor (normalizar : bool) (nombre : string) : string :=
  if normalizar then normalizar_nombre_taxonomico nombre else nombre.

(** What a segment binds the key [key] to, if it does. *)
Definition candidato (normalizar : bool) (key : string) (parte : string)
    : option string :=
  match Re.match_rank parte with
  | Some (p, nombre) =>
      if decide (clave p = key) then Some (valor normalizar nombre) else None
  | None => None
  end.

(** The seven keys of a lineage. *)
Definition claves : list string :=
  ["kingdom"; "phylum"; "class"; "order"; "family"; "genus"; "species"].

(** The fields of a lineage line: the stripped line split at the
    tabulations. *)
Definition campos (linea : string) : list string :=
  Str.split "009" (Str.strip linea).

(** The stripped line has a tabulation. *)
Definition con_tab (linea : string) : bool :=
  Str.any (fun c => Ascii.eqb c "009") (Str.strip linea).

(** The row [cargar_taxon] builds from the first two fields of a line. *)
Definition fila_taxon (normalizar : bool) (id_completo taxonomia_str : string)
    : LineageRecord :=
  let taxonomia := parsear_taxonomia taxonomia_str normalizar in
  mkLineage (extraer_id_base id_completo)
    (get taxonomia "kingdom") (get taxonomia "phylum")
    (get taxonomia "class") (get taxonomia "order")
    (get taxonomia "family") (get taxonomia "genus")
    (get taxonomia "species").

(** The row of a line, from its first two fields. *)
Definition fila_de_linea (normalizar : bool) (linea : string) : LineageRecord :=
  fila_taxon normalizar (hd "" (campos linea)) (nth 1 (campos linea) "").

(** A string without space. *)
Definition sin_espacio (s : string) : Prop :=
  Str.any (Ascii.eqb " ") s = false.

(** One of the letters [A] to [Z]. *)
Definition mayuscula_ascii (c : ascii) : bool :=
  let n := Str.code c in ((65 <=? n) && (n <=? 90))%N.

(** Two summaries that agree on every entry but the standard deviation. *)
Definition igual_salvo_std (st st' : Estadisticas) : Prop :=
  total_registros st = total_registros st'
  /\ secuencias_unicas st = secuencias_unicas st'
  /\ especies_unicas st = especies_unicas st'
  /\ generos_unicos st = generos_unicos st'
  /\ familias_unicas st = familias_unicas st'
  /\ ordenes_unicos st = ordenes_unicos st'
  /\ clases_unicas st = clases_unicas st'
  /\ filos_unicos st = filos_unicos st'
  /\ reinos_unicos st = reinos_unicos st'
  /\ longitud_promedio st = longitud_promedio st'
  /\ longitud_mediana st = longitud_mediana st'
  /\ longitud_min st = longitud_min st'
  /\ longitud_max st = longitud_max st'.

(** The identifier is a result of [extraer_id_base]. *)
Definition canonico (id : string) : Prop := extraer_id_base id = id.

(** Two states of the loop of [cargar_fasta] that differ only in how the
    sequence read so far is cut into pieces. *)
Definition misma_secuencia (st st' : fasta_state) : Prop :=
  datos st = datos st' /\ id_actual st = id_actual st'
  /\ Str.join (secuencia_actual st) = Str.join (secuencia_actual st').

(** The labels in the order [calcular_estadisticas] reads the columns. *)
Definition orden_lectura : list string :=
  ["dna_sequence"; "sequence_id"; "species"; "genus"; "family"; "order";
   "class"; "phylum"; "kingdom"].

(** The first label, in reading order, that the frame lacks. *)
Definition primera_faltante (df : DataFrame JoinedRecord) : option string :=
  find (fun c => negb (bool_decide (c ∈ columns df))) orden_lectura.

(** The eight distinct-value counts of a summary are at most [n], and at
    least 1 when [n] is not 0. *)
Definition conteos_entre (st : Estadisticas) (n : nat) : Prop :=
  Forall (fun c => c <= n /\ (n <> 0 -> 1 <= c))
    [secuencias_unicas st; especies_unicas st; generos_unicos st;
     familias_unicas st; ordenes_unicos st; clases_unicas st;
     filos_unicos st; reinos_unicos st].

(** [lo] and [hi] are the least and the greatest of the values. *)
Definition extremos (longitudes : list Z) (lo hi : Z) : Prop :=
  lo ∈ longitudes /\ hi ∈ longitudes
  /\ forall x, x ∈ longitudes -> (lo <= x <= hi)%Z.

(** * Properties *)

(** ** Strings *)

Section StrFacts.

Lemma append_nil_r (s : string) : s +:+ "" = s.
Proof. induction s as [|c s IH]; simpl; [done | by rewrite IH]. Qed.

Lemma append_assoc (s1 s2 s3 : string) :
  (s1 +:+ s2) +:+ s3 = s1 +:+ (s2 +:+ s3).
Proof. induction s1 as [|c s1 IH]; simpl; [done | by rewrite IH]. Qed.

Lemma append_snoc (acc : string) (c : ascii) (m : string) :
  (acc +:+ String c "") +:+ m = acc +:+ String c m.
Proof. by rewrite append_assoc. Qed.

Lemma all_append p (s1 s2 : string) :
  Str.all p (s1 +:+ s2) = Str.all p s1 && Str.all p s2.
Proof.
  induction s1 as [|c s1 IH]; simpl; [done |].
  by rewrite IH, andb_assoc.
Qed.

Lemma any_append p (s1 s2 : string) :
  Str.any p (s1 +:+ s2) = Str.any p s1 || Str.any p s2.
Proof.
  induction s1 as [|c s1 IH]; simpl; [done |].
  by rewrite IH, orb_assoc.
Qed.

Lemma any_join p (l : list string) :
  Forall (fun s => Str.any p s = false) l -> Str.any p (Str.join l) = false.
Proof.
  induction 1 as [|s l Hs _ IH]; simpl; [done |].
  by rewrite any_append, Hs, IH.
Qed.

(** [strip] trims the two ends and nothing inside. *)
Example strip_ejemplo :
  Str.strip (tab +:+ " AC GT " +:+ String line_feed "") = "AC GT".
Proof. reflexivity. Qed.

(** What [lstrip] leaves does not start with a stripped character. *)
Lemma lstrip_by_head p (s : string) :
  match Str.lstrip_by p s with
  | String c _ => p c = false
  | EmptyString => True
  end.
Proof.
  induction s as [|c s IH]; simpl; [done |].
  destruct (p c) eqn:Hc; [done | simpl; done].
Qed.

Lemma lstrip_by_id p (s : string) :
  match s with String c _ => p c = false | EmptyString => True end ->
  Str.lstrip_by p s = s.
Proof. destruct s as [|c s]; simpl; [done |]. by intros ->. Qed.

(** The first piece of a split: it has no separator and starts the
    input. *)
Lemma split_hd_prefix sep (s : string) :
  exists rest, s = hd "" (Str.split sep s) +:+ rest.
Proof.
  induction s as [|c s [rest IH]]; simpl; [by exists "" |].
  destruct (Ascii.eqb c sep); simpl; [by eexists |].
  destruct (Str.split sep s) as [|h t]; simpl in *.
  - exists s. done.
  - exists rest. by rewrite <- IH.
Qed.

Lemma split_hd_no_sep sep (s : string) :
  Str.any (fun c => Ascii.eqb c sep) (hd "" (Str.split sep s)) = false.
Proof.
  induction s as [|c s IH]; simpl; [done |].
  destruct (Ascii.eqb c sep) eqn:Hc; simpl; [done |].
  destruct (Str.split sep s) as [|h t]; simpl in *; by rewrite Hc.
Qed.

(** A string without the separator is the only piece of its split. *)
Lemma split_no_sep sep (s : string) :
  Str.any (fun c => Ascii.eqb c sep) s = false -> Str.split sep s = [s].
Proof.
  induction s as [|c s IH]; simpl; [done |].
  intros [Hc Hs]%orb_false_elim. rewrite Hc, (IH Hs). done.
Qed.

End StrFacts.

(** ** The regular-expression combinators *)

Section ReFacts.

Context {A : Type}.
Implicit Types (k : string -> string -> option A) (cls : ascii -> bool).

Lemma plus_greedy_blocked cls acc s k :
  blocked cls s = true -> Re.plus_greedy cls acc s k = None.
Proof.
  destruct s as [|c s]; simpl; [done |].
  by intros ->%negb_true_iff.
Qed.

(** A successful greedy quantifier took a non-empty run of the class and
    the rest of the pattern accepted what follows. *)
Lemma plus_greedy_Some cls acc s k r :
  Re.plus_greedy cls acc s k = Some r ->
  exists m rest, s = m +:+ rest /\ m <> "" /\ Str.all cls m = true
                 /\ k (acc +:+ m) rest = Some r.
Proof.
  revert acc. induction s as [|c s IH]; intros acc; simpl; [done |].
  destruct (cls c) eqn:Hc; [|done].
  destruct (Re.plus_greedy cls (acc +:+ String c "") s k) as [r'|] eqn:Hg.
  - intros [= ->]. destruct (IH _ Hg) as (m & rest & -> & _ & Hm & Hk).
    exists (String c m), rest. simpl. rewrite Hc, Hm.
    rewrite append_snoc in Hk. done.
  - intros Hk. exists (String c ""), s. simpl. by rewrite Hc.
Qed.

(** When the whole run of the class is [m] and the rest of the pattern
    accepts after it, that is the match. *)
Lemma plus_greedy_run cls acc m rest k r :
  m <> "" -> Str.all cls m = true -> blocked cls rest = true ->
  k (acc +:+ m) rest = Some r ->
  Re.plus_greedy cls acc (m +:+ rest) k = Some r.
Proof.
  revert acc. induction m as [|c m IH]; intros acc Hne Hall Hb Hk; [done |].
  simpl in *. apply andb_true_iff in Hall as [Hc Hall]. rewrite Hc.
  destruct m as [|c' m].
  - simpl. by rewrite (plus_greedy_blocked _ _ _ _ Hb).
  - rewrite (IH (acc +:+ String c "")); [done | done | done | done |].
    by rewrite append_snoc.
Qed.

(** The lazy quantifier stops at the first run after which the rest of the
    pattern accepts. *)
Lemma plus_lazy_first cls acc m rest k r :
  m <> "" -> Str.all cls m = true ->
  (forall m1 m2, m = m1 +:+ m2 -> m1 <> "" -> m2 <> "" ->
     k (acc +:+ m1) (m2 +:+ rest) = None) ->
  k (acc +:+ m) rest = Some r ->
  Re.plus_lazy cls acc (m +:+ rest) k = Some r.
Proof.
  revert acc. induction m as [|c m IH]; intros acc Hne Hall Hshort Hk; [done |].
  simpl in *. apply andb_true_iff in Hall as [Hc Hall]. rewrite Hc.
  destruct m as [|c' m].
  - simpl. by rewrite Hk.
  - rewrite (Hshort (String c "") (String c' m)); [|done..].
    apply IH; [done | done | | by rewrite append_snoc].
    intros m1 m2 Hm Hm1 Hm2. rewrite append_snoc.
    apply (Hshort (String c m1) m2); [by rewrite Hm | done | done].
Qed.

End ReFacts.

(** ** [extraer_id_base] *)

Section ExtraerIdBase.

(** Group 1 of a match: a non-empty run without dot, a dot, a non-empty run
    of digits. *)
Lemma match_id_Some (s g : string) :
  Re.match_id s = Some g ->
  exists a d rest, s = a +:+ "." +:+ d +:+ rest /\ g = a +:+ "." +:+ d
    /\ a <> "" /\ Str.all Re.not_dot a = true
    /\ d <> "" /\ Str.all Str.isdigit d = true.
Proof.
  unfold Re.match_id. intros H.
  apply plus_greedy_Some in H as (a & r1 & -> & Ha & Hall & H).
  destruct r1 as [|c r2]; simpl in H; [done |].
  destruct (Ascii.eqb c ".") eqn:Hc; [|done].
  apply Ascii.eqb_eq in Hc as ->.
  apply plus_greedy_Some in H as (d & rest & -> & Hd & Hdall & [= <-]).
  exists a, d, rest. simpl. done.
Qed.

Lemma match_id_canonical (a d : string) :
  a <> "" -> Str.all Re.not_dot a = true ->
  d <> "" -> Str.all Str.isdigit d = true ->
  Re.match_id (a +:+ "." +:+ d) = Some (a +:+ "." +:+ d).
Proof.
  intros Ha Hall Hd Hdall. unfold Re.match_id.
  apply plus_greedy_run; [done | done | done |]. simpl.
  rewrite <- (append_nil_r d) at 1.
  apply plus_greedy_run; [done | done | done |]. done.
Qed.

Lemma match_id_no_dot (s : string) :
  Str.all Re.not_dot s = true -> Re.match_id s = None.
Proof.
  intros Hs. destruct (Re.match_id s) as [g|] eqn:Hm; [|done].
  apply match_id_Some in Hm as (a & d & rest & -> & _).
  rewrite all_append in Hs. simpl in Hs.
  apply andb_true_iff in Hs as [_ Hs]. done.
Qed.

Lemma all_not_dot_any (s : string) :
  Str.any (fun c => Ascii.eqb c ".") s = false -> Str.all Re.not_dot s = true.
Proof.
  induction s as [|c s IH]; simpl; [done |].
  intros [Hc Hs]%orb_false_elim. unfold Re.not_dot at 1. by rewrite Hc, IH.
Qed.

(** The first character of a prefix is the first character of the whole. *)
Lemma head_append p (s1 s2 : string) :
  s1 <> "" ->
  match s1 +:+ s2 with String c _ => p c = false | EmptyString => True end ->
  match s1 with String c _ => p c = false | EmptyString => True end.
Proof. destruct s1; simpl; done. Qed.

(** A result of [extraer_id_base] is left as it is. *)
Lemma extraer_id_base_fixed (s r : string) :
  extraer_id_base s = r -> extraer_id_base r = r.
Proof.
  unfold extraer_id_base at 1.
  pose proof (lstrip_by_head (Ascii.eqb ">") s) as Hhead.
  set (c := Str.lstrip_by (Ascii.eqb ">") s) in *.
  destruct (Re.match_id c) as [g|] eqn:Hm.
  - intros <-.
    apply match_id_Some in Hm
      as (a & d & rest & Hc & -> & Ha & Hall & Hd & Hdall).
    rewrite Hc in Hhead. apply head_append in Hhead; [|done].
    unfold extraer_id_base. rewrite lstrip_by_id.
    + by rewrite match_id_canonical.
    + destruct a; simpl in *; done.
  - intros <-. destruct (split_hd_prefix "." c) as [rest Hc].
    pose proof (split_hd_no_sep "." c) as Hdot.
    set (p := hd "" (Str.split "." c)) in *.
    unfold extraer_id_base. rewrite lstrip_by_id.
    + rewrite match_id_no_dot by by apply all_not_dot_any.
      by rewrite split_no_sep.
    + destruct p as [|x p]; [done |]. rewrite Hc in Hhead. done.
Qed.

(** The examples of the docstring, and the fallback on the first dot. *)
Example extraer_id_base_ejemplos :
  extraer_id_base "MG559732.1.<1.>690" = "MG559732.1"
  /\ extraer_id_base ">MG559732.1.<1.>690" = "MG559732.1"
  /\ extraer_id_base "MG559732.1" = "MG559732.1"
  /\ extraer_id_base "MG559732" = "MG559732"
  /\ extraer_id_base "MG559732.x.1" = "MG559732".
Proof. repeat split; reflexivity. Qed.

(** C3: [extraer_id_base] is idempotent: applying it to its own result
    returns that result, for every input string. *)
Theorem extraer_id_base_idempotent (s : string) :
  extraer_id_base (extraer_id_base s) = extraer_id_base s.
Proof. by apply (extraer_id_base_fixed s). Qed.

End ExtraerIdBase.

(** ** [normalizar_nombre_taxonomico] and [parsear_taxonomia] *)

Section ParsearTaxonomia.

Lemma rank_letter_cases (p : ascii) :
  Re.rank_letter p = true ->
  p = "k"%char \/ p = "g"%char \/ p = "p"%char \/ p = "c"%char
  \/ p = "o"%char \/ p = "f"%char \/ p = "s"%char.
Proof.
  unfold Re.rank_letter. simpl. rewrite orb_false_r.
  rewrite !orb_true_iff, !Ascii.eqb_eq. tauto.
Qed.

(** A run of digits followed by the end of the input has only digits and,
    possibly, a last line feed. *)
Lemma digits_at_end (run rest : string) :
  Str.all Str.isdigit run = true -> Re.at_end rest = true ->
  Str.all (fun c => Str.isdigit c || Ascii.eqb c line_feed) (run +:+ rest)
  = true.
Proof.
  intros Hrun Hend. rewrite all_append. apply andb_true_iff. split.
  - clear Hend. induction run as [|c run IH]; simpl in *; [done |].
    apply andb_true_iff in Hrun as [-> Hrun]. simpl. by apply IH.
  - destruct rest as [|c [|c' rest]]; simpl in *; [done | | done].
    unfold line_feed. by rewrite Hend, orb_true_r.
Qed.

(** After a shorter name the rest of the pattern fails: the separating
    underscore stands among the characters that had to be digits. *)
Lemma digits_blocked {A} (m d : string) (r : A) :
  Re.plus_greedy Str.isdigit "" (m +:+ String "_" d)
    (fun _ r5 => if Re.at_end r5 then Some r else None) = None.
Proof.
  destruct (Re.plus_greedy _ _ _ _) as [r'|] eqn:H; [|done].
  apply plus_greedy_Some in H as (run & rest & Heq & _ & Hrun & Hk).
  destruct (Re.at_end rest) eqn:Hend; [|done].
  pose proof (digits_at_end run rest Hrun Hend) as Hall.
  rewrite <- Heq, all_append in Hall.
  apply andb_true_iff in Hall as [_ Hall]. simpl in Hall. done.
Qed.

(** The pattern of a segment recovers the rank letter and the name. *)
Lemma match_rank_segmento (p : ascii) (name d : string) :
  Re.rank_letter p = true ->
  name <> "" -> Str.all Re.dot name = true ->
  d <> "" -> Str.all Str.isdigit d = true ->
  Re.match_rank (segmento p name d) = Some (p, name).
Proof.
  intros Hp Hname Hdot Hd Hdigits. unfold Re.match_rank, segmento.
  rewrite Hp. simpl.
  apply plus_lazy_first; [done | done | |].
  - intros m1 m2 _ _ Hm2. destruct m2 as [|c m2]; [done |]. simpl.
    destruct (Ascii.eqb c "_"); [|done]. apply digits_blocked.
  - simpl. rewrite <- (append_nil_r d) at 1.
    apply plus_greedy_run; [done | done | done |]. done.
Qed.

Lemma digits_no_sep (sep : ascii) (d : string) :
  Str.isdigit sep = false -> Str.all Str.isdigit d = true ->
  Str.any (fun c => Ascii.eqb c sep) d = false.
Proof.
  intros Hsep. induction d as [|c d IH]; simpl; [done |].
  intros [Hc Hd]%andb_true_iff. rewrite (IH Hd), orb_false_r.
  destruct (Ascii.eqb c sep) eqn:E; [|done].
  apply Ascii.eqb_eq in E as ->. congruence.
Qed.

(** A well-formed segment is one piece for [split(';')]. *)
Lemma split_segmento (p : ascii) (name d : string) :
  Re.rank_letter p = true ->
  Str.any (fun c => Ascii.eqb c ";") name = false ->
  Str.all Str.isdigit d = true ->
  Str.split ";" (segmento p name d) = [segmento p name d].
Proof.
  intros Hp Hname Hd. apply split_no_sep. unfold segmento. simpl.
  rewrite !any_append, Hname. simpl.
  rewrite (digits_no_sep ";" d) by done.
  by destruct (rank_letter_cases p Hp) as [->|[->|[->|[->|[->|[->| ->]]]]]].
Qed.

(** The mapping a well-formed segment parses to: its rank key bound to the
    name, whatever the end of the name looks like. *)
Lemma parsear_taxonomia_segmento (p : ascii) (name d : string) (norm : bool) :
  Re.rank_letter p = true ->
  name <> "" ->
  Str.all Re.dot name = true ->
  Str.any (fun c => Ascii.eqb c ";") name = false ->
  d <> "" -> Str.all Str.isdigit d = true ->
  parsear_taxonomia (segmento p name d) norm
  = {[ clave p := if norm then normalizar_nombre_taxonomico name else name ]}.
Proof.
  intros Hp Hname Hdot Hsemi Hd Hdigits. unfold parsear_taxonomia.
  rewrite split_segmento by done. simpl. unfold parsear_parte.
  rewrite match_rank_segmento by done.
  by destruct (rank_letter_cases p Hp) as [->|[->|[->|[->|[->|[->| ->]]]]]].
Qed.

(** The example of the docstring of [normalizar_nombre_taxonomico]. *)
Example normalizar_nombre_taxonomico_ejemplo :
  normalizar_nombre_taxonomico "Clydonella sawyeri" = "clydonella_sawyeri".
Proof. reflexivity. Qed.

(** A lineage of four ranks: the three others are absent, and a name that
    ends in digits keeps them. *)
Example parsear_taxonomia_ejemplo :
  parsear_taxonomia "k__Animalia_1;p__Chordata_2;g__Homo_5;s__Homo_sapiens_99"
    true
  = <["kingdom" := "animalia"]> (<["phylum" := "chordata"]>
      (<["genus" := "homo"]> {[ "species" := "homo_sapiens" ]}))
  /\ parsear_taxonomia "s__Homo_sapiens_2_99" false
     = {[ "species" := "Homo_sapiens_2" ]}.
Proof. split; vm_compute; reflexivity. Qed.

(** C5 (as the code has it): for every rank letter, every non-empty name
    without an underscore-digits suffix that holds neither a line feed nor
    a semicolon, and every non-empty digit string [d], parsing the segment
    [rank__name_d] binds the key of the rank to the name, normalized when
    normalization is on. *)
Theorem parsear_taxonomia_roundtrip
    (p : ascii) (name d : string) (norm : bool) :
  Re.rank_letter p = true ->
  name <> "" ->
  sufijo_ambiguo name = false ->
  Str.any (fun c => Ascii.eqb c line_feed) name = false ->
  Str.any (fun c => Ascii.eqb c ";") name = false ->
  d <> "" -> Str.all Str.isdigit d = true ->
  parsear_taxonomia (segmento p name d) norm !! clave p
  = Some (if norm then normalizar_nombre_taxonomico name else name).
Proof.
  intros Hp Hname _ Hlf Hsemi Hd Hdigits.
  assert (Str.all Re.dot name = true) as Hdot.
  { clear -Hlf. induction name as [|c name IH]; simpl in *; [done |].
    apply orb_false_elim in Hlf as [Hc Hlf]. unfold Re.dot at 1.
    fold line_feed. by rewrite Hc, IH. }
  rewrite parsear_taxonomia_segmento by done. apply lookup_singleton_eq.
Qed.

Lemma parsear_taxonomia_roundtrip_witness :
  parsear_taxonomia (segmento "s" "Homo sapiens" "99") true !! clave "s"
  = Some (normalizar_nombre_taxonomico "Homo sapiens").
Proof.
  apply (parsear_taxonomia_roundtrip "s" "Homo sapiens" "99" true);
    solve [reflexivity | discriminate].
Defined.

(** C5 as stated fails: a name with a line feed, or with a semicolon, has
    no underscore-digits suffix, and its segment binds no rank at all. *)
Lemma parsear_taxonomia_roundtrip_fails :
  Re.rank_letter "k" = true
  /\ Str.is_empty nombre_con_salto = false
  /\ sufijo_ambiguo nombre_con_salto = false
  /\ Str.is_empty "7" = false /\ Str.all Str.isdigit "7" = true
  /\ parsear_taxonomia (segmento "k" nombre_con_salto "7") false
      !! clave "k" = None
  /\ sufijo_ambiguo "Homo;sapiens" = false
  /\ parsear_taxonomia (segmento "k" "Homo;sapiens" "7") false
      !! clave "k" = None.
Proof. repeat split; vm_compute; reflexivity. Qed.

(** C6: a segment that does not match the rank pattern leaves the mapping
    as it is, and [parsear_taxonomia "malformed;;k__X_1"] with
    normalization is the mapping of [kingdom] to ["x"] alone: no other key
    is bound. *)
Theorem parsear_taxonomia_malformed :
  (forall norm t parte,
     Re.match_rank parte = None -> parsear_parte norm t parte = t)
  /\ Str.split ";" "malformed;;k__X_1" = ["malformed"; ""; "k__X_1"]
  /\ Re.match_rank "malformed" = None
  /\ Re.match_rank "" = None
  /\ parsear_taxonomia "malformed;;k__X_1" true = {[ "kingdom" := "x" ]}
  /\ (forall key, key <> "kingdom" ->
        parsear_taxonomia "malformed;;k__X_1" true !! key = None).
Proof.
  assert (parsear_taxonomia "malformed;;k__X_1" true = {[ "kingdom" := "x" ]})
    as Heq by (vm_compute; reflexivity).
  split; [|repeat split; try done].
  - intros norm t parte H. unfold parsear_parte. by rewrite H.
  - intros key Hkey. rewrite Heq. by apply lookup_singleton_ne.
Qed.

Lemma parsear_taxonomia_malformed_witness :
  parsear_parte true ∅ "malformed" = ∅
  /\ parsear_taxonomia "malformed;;k__X_1" true !! "phylum" = None.
Proof.
  destruct parsear_taxonomia_malformed as (Hskip & _ & _ & _ & _ & Hother).
  split; [apply Hskip; reflexivity | apply Hother; discriminate].
Defined.

(** C4: the empty name maps to itself, but at a name with a leading and a
    trailing space the code returns a string that starts and ends with an
    underscore: [replace] has turned the two spaces into underscores
    before [strip] runs, and [strip] finds nothing to trim. *)
Theorem normalizar_nombre_taxonomico_outer_spaces :
  normalizar_nombre_taxonomico "" = ""
  /\ normalizar_nombre_taxonomico " Homo sapiens " = "_homo_sapiens_"
  /\ Str.replace " " "_" (Str.lower " Homo sapiens ") = "_homo_sapiens_"
  /\ Str.strip "_homo_sapiens_" = "_homo_sapiens_".
Proof. repeat split; reflexivity. Qed.

End ParsearTaxonomia.

(** ** [cargar_fasta] *)

Section CargarFasta.

Lemma linea_cabecera st h :
  es_cabecera h = true ->
  cargar_fasta_linea st h = mkFasta (guardar st) (Some (id_cabecera h)) [].
Proof. unfold cargar_fasta_linea, es_cabecera. by intros ->. Qed.

Lemma linea_secuencia st l :
  es_cabecera l = false ->
  cargar_fasta_linea st l =
    match id_actual st with
    | Some _ =>
        mkFasta (datos st) (id_actual st) (secuencia_actual st ++ [Str.strip l])
    | None => st
    end.
Proof. unfold cargar_fasta_linea, es_cabecera. by intros ->. Qed.

(** Lines before the first header leave the initial state as it is. *)
Lemma lineas_sin_cabecera_inicio pre :
  sin_cabecera pre -> foldl cargar_fasta_linea inicio pre = inicio.
Proof.
  induction pre as [|l pre IH] using rev_ind; [done |].
  unfold sin_cabecera in *. rewrite Forall_app, Forall_singleton.
  intros [Hpre Hl]. by rewrite foldl_snoc, (IH Hpre), linea_secuencia.
Qed.

Lemma guardar_linea_secuencia st l :
  es_cabecera l = false ->
  length (guardar (cargar_fasta_linea st l)) = length (guardar st).
Proof.
  intros Hl. rewrite linea_secuencia by done. unfold guardar.
  destruct (id_actual st) eqn:Hid; simpl; rewrite ?Hid; [|done].
  by rewrite !length_app.
Qed.

(** One record for each header line. *)
Lemma cargar_fasta_datos_length lineas :
  length (cargar_fasta_datos lineas)
  = length (filter (fun l => es_cabecera l = true) lineas).
Proof.
  unfold cargar_fasta_datos.
  induction lineas as [|l lineas IH] using rev_ind; [done |].
  rewrite foldl_snoc, filter_app, length_app.
  destruct (es_cabecera l) eqn:Hl.
  - rewrite linea_cabecera by done. unfold guardar at 1. simpl.
    rewrite length_app, IH. simpl.
    rewrite (filter_cons_True (fun l => es_cabecera l = true)) by done.
    done.
  - rewrite guardar_linea_secuencia, IH by done.
    rewrite (filter_cons_False (fun l => es_cabecera l = true))
      by (rewrite Hl; done).
    simpl. lia.
Qed.

(** Two blocks, of two lines and of one line. *)
Example cargar_fasta_ejemplo :
  cargar_fasta [">A.1 cox1"; "ACGT"; "TTG"; ">B.2"; "GGA"]
  = mkFrame fasta_columns [mkSequence "A.1" "ACGTTTG"; mkSequence "B.2" "GGA"].
Proof. reflexivity. Qed.

(** C7: a line that is not a header emits nothing; the output has one
    record for each header line, so a file without header lines gives the
    empty output; and the last record of a file that ends with a header
    line has the identifier of that header and an empty [dna_sequence]. *)
Theorem cargar_fasta_emission :
  (forall st l,
     es_cabecera l = false -> datos (cargar_fasta_linea st l) = datos st)
  /\ (forall lineas,
        length (cargar_fasta_datos lineas)
        = length (filter (fun l => es_cabecera l = true) lineas))
  /\ (forall lineas,
        sin_cabecera lineas ->
        cargar_fasta_datos lineas = [] /\ cargar_fasta lineas = mkFrame [] [])
  /\ (forall pre h,
        es_cabecera h = true ->
        last (cargar_fasta_datos (pre ++ [h])%list)
        = Some (mkSequence (id_cabecera h) "")).
Proof.
  repeat split.
  - intros st l Hl. rewrite linea_secuencia by done.
    by destruct (id_actual st).
  - apply cargar_fasta_datos_length.
  - unfold cargar_fasta_datos.
    by rewrite lineas_sin_cabecera_inicio.
  - unfold cargar_fasta, cargar_fasta_datos.
    by rewrite lineas_sin_cabecera_inicio.
  - intros pre h Hh. unfold cargar_fasta_datos.
    rewrite foldl_snoc, linea_cabecera by done.
    unfold guardar at 1. simpl. apply last_snoc.
Qed.

Lemma cargar_fasta_emission_witness :
  datos (cargar_fasta_linea (mkFasta [] (Some "A") ["AC"]) "GT") = []
  /\ cargar_fasta_datos ["ACGT"; "TTGA"] = []
  /\ last (cargar_fasta_datos ([">A.1"; "ACGT"] ++ [">B.2 cox1"])%list)
     = Some (mkSequence "B.2" "").
Proof.
  destruct cargar_fasta_emission as (Hstep & _ & Hnone & Hlast).
  split; [apply (Hstep (mkFasta [] (Some "A") ["AC"]) "GT"); reflexivity |].
  split; [apply Hnone; repeat constructor |].
  apply (Hlast [">A.1"; "ACGT"] ">B.2 cox1"). reflexivity.
Defined.

(** C9: the lines before the first header line do not change the output:
    they are part of no record and the rest of the file loads as if they
    were absent. *)
Theorem cargar_fasta_leading_lines (pre rest : list string) :
  sin_cabecera pre ->
  cargar_fasta_datos (pre ++ rest)%list = cargar_fasta_datos rest
  /\ cargar_fasta (pre ++ rest)%list = cargar_fasta rest.
Proof.
  intros Hpre. unfold cargar_fasta, cargar_fasta_datos.
  by rewrite foldl_app, lineas_sin_cabecera_inicio.
Qed.

Lemma cargar_fasta_leading_lines_witness :
  cargar_fasta_datos (["ACGT"; "; a comment"] ++ [">A.1"; "TT"])%list
  = cargar_fasta_datos [">A.1"; "TT"]
  /\ cargar_fasta (["ACGT"; "; a comment"] ++ [">A.1"; "TT"])%list
     = cargar_fasta [">A.1"; "TT"].
Proof.
  apply (cargar_fasta_leading_lines ["ACGT"; "; a comment"] [">A.1"; "TT"]).
  repeat constructor.
Defined.

Lemma cerrado_snoc lineas l r : cerrado lineas r -> cerrado (lineas ++ [l]) r.
Proof.
  intros (pre & h & body & rest & h' & -> & Hh & Hbody & Hh' & ->).
  exists pre, h, body, (rest ++ [l])%list, h'.
  repeat split; try done. by simplify_list_eq.
Qed.

Lemma fasta_inv_step lineas st l :
  fasta_inv lineas st -> fasta_inv (lineas ++ [l]) (cargar_fasta_linea st l).
Proof.
  intros [Hdatos Hopen]. unfold abierto in Hopen.
  destruct (es_cabecera l) eqn:Hl.
  - rewrite linea_cabecera by done. split.
    + intros r. unfold guardar. simpl.
      destruct (id_actual st) as [id|] eqn:Hid.
      * rewrite elem_of_app, list_elem_of_singleton. intros [Hr | ->].
        { by apply cerrado_snoc, Hdatos. }
        destruct Hopen as (pre & h & body & -> & Hh & Hbody & -> & ->).
        exists pre, h, body, [], l. repeat split; try done.
        by simplify_list_eq.
      * intros Hr. by apply cerrado_snoc, Hdatos.
    + unfold abierto. simpl. exists lineas, l, [].
      repeat split; [done | constructor].
  - rewrite linea_secuencia by done.
    destruct (id_actual st) as [id|] eqn:Hid.
    + split; simpl.
      * intros r Hr. by apply cerrado_snoc, Hdatos.
      * unfold abierto. simpl.
        destruct Hopen as (pre & h & body & -> & Hh & Hbody & -> & Hseq).
        exists pre, h, (body ++ [l])%list. repeat split; try done.
        -- by simplify_list_eq.
        -- apply Forall_app. split; [done | by apply Forall_singleton].
        -- by rewrite Hseq, map_app.
    + split.
      * intros r Hr. by apply cerrado_snoc, Hdatos.
      * unfold abierto. by rewrite Hid.
Qed.

Lemma fasta_inv_loop lineas :
  fasta_inv lineas (foldl cargar_fasta_linea inicio lineas).
Proof.
  induction lineas as [|l lineas IH] using rev_ind.
  - split; [|done]. simpl. by intros r Hr%elem_of_nil.
  - rewrite foldl_snoc. by apply fasta_inv_step.
Qed.

(** Every record of the output is the record of a block of the file. *)
Lemma cargar_fasta_datos_bloque lineas r :
  r ∈ cargar_fasta_datos lineas -> bloque lineas r.
Proof.
  unfold cargar_fasta_datos.
  destruct (fasta_inv_loop lineas) as [Hdatos Hopen].
  set (st := foldl cargar_fasta_linea inicio lineas) in *.
  assert (forall r, r ∈ datos st -> bloque lineas r) as Hcerr.
  { intros r' Hr'.
    destruct (Hdatos r' Hr')
      as (pre & h & body & rest & h' & -> & Hh & Hbody & Hh' & ->).
    exists pre, h, body, (h' :: rest). repeat split; try done.
    right. by exists h', rest. }
  unfold guardar, abierto in *. destruct (id_actual st) as [id|]; [|by auto].
  rewrite elem_of_app, list_elem_of_singleton. intros [Hr | ->]; [by auto |].
  destruct Hopen as (pre & h & body & -> & Hh & Hbody & -> & ->).
  exists pre, h, body, []. repeat split; try done.
  - by simplify_list_eq.
  - by left.
Qed.

Lemma any_join_iff p (l : list string) :
  Str.any p (Str.join l) = false <-> Forall (fun s => Str.any p s = false) l.
Proof.
  split; [|apply any_join].
  induction l as [|s l IH]; simpl; [done |].
  rewrite any_append. intros [Hs Hl]%orb_false_elim.
  constructor; [done | by apply IH].
Qed.

(** C8 (as the code has it): every record of the output belongs to a block
    of the file, a header line with the lines up to the next header or the
    end; its [dna_sequence] is the concatenation, in file order, of the
    lines of the block, each stripped at its two ends only.  Whitespace
    inside a line is kept: the sequence is free of whitespace exactly when
    every stripped line of the block is. *)
Theorem cargar_fasta_dna_sequence (lineas : list string) (r : SequenceRecord) :
  r ∈ cargar_fasta_datos lineas ->
  exists (pre : list string) (h : string) (body rest : list string),
    lineas = (pre ++ h :: body ++ rest)%list
    /\ es_cabecera h = true
    /\ sin_cabecera body
    /\ (rest = [] \/
        exists h' rest', rest = h' :: rest' /\ es_cabecera h' = true)
    /\ s_sequence_id r = id_cabecera h
    /\ s_dna_sequence r = Str.join (map Str.strip body)
    /\ (Str.any Str.isspace (s_dna_sequence r) = false <->
        Forall (fun l => Str.any Str.isspace (Str.strip l) = false) body).
Proof.
  intros (pre & h & body & rest & -> & Hh & Hbody & Hrest & ->)
    %cargar_fasta_datos_bloque.
  exists pre, h, body, rest. repeat split; try done.
  - simpl. rewrite any_join_iff, Forall_map. done.
  - simpl. rewrite any_join_iff, Forall_map. done.
Qed.

Lemma cargar_fasta_dna_sequence_witness :
  exists (pre : list string) (h : string) (body rest : list string),
    [">A.1 cox1"; " ACGT "; "TT"; ">B.2"; "G"]
    = (pre ++ h :: body ++ rest)%list
    /\ es_cabecera h = true
    /\ sin_cabecera body
    /\ (rest = [] \/
        exists h' rest', rest = h' :: rest' /\ es_cabecera h' = true)
    /\ "A.1" = id_cabecera h
    /\ "ACGTTT" = Str.join (map Str.strip body)
    /\ (Str.any Str.isspace "ACGTTT" = false <->
        Forall (fun l => Str.any Str.isspace (Str.strip l) = false) body).
Proof.
  apply (cargar_fasta_dna_sequence
           [">A.1 cox1"; " ACGT "; "TT"; ">B.2"; "G"]
           (mkSequence "A.1" "ACGTTT")).
  vm_compute. left.
Defined.

(** C8 as stated fails: a sequence line with a space inside puts the space
    into [dna_sequence]. *)
Lemma cargar_fasta_keeps_inner_whitespace :
  cargar_fasta_datos [">A.1"; "AC GT"] = [mkSequence "A.1" "AC GT"]
  /\ Str.any Str.isspace "AC GT" = true.
Proof. split; reflexivity. Qed.

End CargarFasta.

(** ** [cargar_dataset]: the inner join *)

Section CargarDataset.

Lemma merge_rows_elem left right j :
  j ∈ merge_rows left right <->
  exists s l, s ∈ left /\ l ∈ right
              /\ s_sequence_id s = l_sequence_id l /\ j = merge_row s l.
Proof.
  unfold merge_rows. rewrite list_elem_of_In, in_flat_map. split.
  - intros (s & Hs & Hj). apply list_elem_of_In in Hs, Hj.
    apply list_elem_of_fmap in Hj as (l & -> & Hl).
    apply list_elem_of_filter in Hl as [Heq Hl]. by exists s, l.
  - intros (s & l & Hs & Hl & Heq & ->). exists s.
    rewrite <- !list_elem_of_In. split; [done |].
    apply list_elem_of_fmap. exists l. split; [done |].
    by apply list_elem_of_filter.
Qed.

Lemma con_id_merge_row k s (m : list LineageRecord) :
  con_id sequence_id k (map (merge_row s) m)
  = if decide (s_sequence_id s = k) then length m else 0.
Proof.
  unfold con_id. induction m as [|l m IH]; simpl.
  - by destruct (decide _).
  - destruct (decide (s_sequence_id s = k)) as [Hk | Hk].
    + rewrite filter_cons_True by done. simpl. by rewrite IH.
    + by rewrite filter_cons_False.
Qed.

(** The rows of the merge with the key [k]: every left row with [k] paired
    with every right row with [k]. *)
Lemma con_id_merge_rows k left right :
  con_id sequence_id k (merge_rows left right)
  = con_id s_sequence_id k left * con_id l_sequence_id k right.
Proof.
  unfold merge_rows. induction left as [|s left IH]; simpl; [done |].
  unfold con_id in *. rewrite filter_app, length_app, IH.
  fold (con_id sequence_id k (map (merge_row s) (matches right s))).
  rewrite con_id_merge_row. destruct (decide (s_sequence_id s = k)) as [Hk|Hk].
  - rewrite (filter_cons_True (fun x => s_sequence_id x = k)) by done.
    unfold matches. rewrite Hk. simpl. done.
  - rewrite (filter_cons_False (fun x => s_sequence_id x = k)) by done.
    done.
Qed.

(** No row has a key that is not in the column. *)
Lemma con_id_absent {A} (campo : A -> string) k (l : list A) :
  k ∉ map campo l -> con_id campo k l = 0.
Proof.
  unfold con_id. induction l as [|x l IH]; simpl; [done |].
  rewrite not_elem_of_cons. intros [Hx Hl].
  rewrite filter_cons_False by congruence. by apply IH.
Qed.

Lemma DataFrame_of_rows {A} keys (datos : list A) :
  rows (DataFrame_of keys datos) = datos.
Proof. by destruct datos. Qed.

Lemma DataFrame_of_columns {A} keys (datos : list A) :
  columns (DataFrame_of keys datos) = match datos with [] => [] | _ => keys end.
Proof. by destruct datos. Qed.

(** The merge of two loaded tables: it raises when a table is empty, the
    frame of an empty list having no column to join on. *)
Lemma merge_loaded (left : list SequenceRecord) (right : list LineageRecord) :
  merge (DataFrame_of fasta_columns left) (DataFrame_of taxon_columns right)
  = match left, right with
    | _ :: _, _ :: _ => Ok (mkFrame joined_columns (merge_rows left right))
    | _, _ => KeyError "sequence_id"
    end.
Proof. destruct left, right; reflexivity. Qed.

Lemma cargar_dataset_loaded archivo_taxon archivo_fasta norm :
  cargar_dataset archivo_taxon archivo_fasta norm
  = match cargar_fasta_datos archivo_fasta,
          cargar_taxon_datos archivo_taxon norm with
    | _ :: _, _ :: _ =>
        Ok (mkFrame joined_columns
              (merge_rows (cargar_fasta_datos archivo_fasta)
                 (cargar_taxon_datos archivo_taxon norm)))
    | _, _ => KeyError "sequence_id"
    end.
Proof. unfold cargar_dataset, cargar_fasta, cargar_taxon. apply merge_loaded. Qed.

Lemma cargar_dataset_Ok archivo_taxon archivo_fasta norm df :
  cargar_dataset archivo_taxon archivo_fasta norm = Ok df ->
  df = mkFrame joined_columns
         (merge_rows (rows (cargar_fasta archivo_fasta))
            (rows (cargar_taxon archivo_taxon norm))).
Proof.
  rewrite cargar_dataset_loaded. unfold cargar_fasta, cargar_taxon.
  rewrite !DataFrame_of_rows.
  destruct (cargar_fasta_datos archivo_fasta); [done |].
  destruct (cargar_taxon_datos archivo_taxon norm); [done |]. by intros [= <-].
Qed.

(** C1: [cargar_dataset] is the inner equi-join of the two tables on
    [sequence_id].  It returns a frame exactly when both tables have a
    row.  The rows of that frame are the pairs of a sequence row and a
    lineage row with equal keys, so the key of every joined row occurs in
    both tables and a row without a counterpart is in no joined row; the
    joined rows with a key [k] number the sequence rows with [k] times the
    lineage rows with [k], none when a table lacks [k].  One sequence row keyed ["X1"] joined with two
    lineage rows keyed ["X1"] gives exactly 2 joined rows. *)
Theorem cargar_dataset_inner_join
    (archivo_taxon archivo_fasta : list string) (norm : bool) :
  ((exists df, cargar_dataset archivo_taxon archivo_fasta norm = Ok df) <->
   rows (cargar_fasta archivo_fasta) <> []
   /\ rows (cargar_taxon archivo_taxon norm) <> [])
  /\ (forall df,
        cargar_dataset archivo_taxon archivo_fasta norm = Ok df ->
        (forall j,
           j ∈ rows df <->
           exists s l,
             s ∈ rows (cargar_fasta archivo_fasta)
             /\ l ∈ rows (cargar_taxon archivo_taxon norm)
             /\ s_sequence_id s = l_sequence_id l
             /\ j = merge_row s l)
        /\ (forall j,
              j ∈ rows df ->
              sequence_id j
                ∈ map s_sequence_id (rows (cargar_fasta archivo_fasta))
              /\ sequence_id j
                   ∈ map l_sequence_id
                       (rows (cargar_taxon archivo_taxon norm)))
        /\ (forall k,
              k ∉ map s_sequence_id (rows (cargar_fasta archivo_fasta))
              \/ k ∉ map l_sequence_id
                       (rows (cargar_taxon archivo_taxon norm)) ->
              con_id sequence_id k (rows df) = 0)
        /\ (forall k,
              con_id sequence_id k (rows df)
              = con_id s_sequence_id k (rows (cargar_fasta archivo_fasta))
                * con_id l_sequence_id k
                    (rows (cargar_taxon archivo_taxon norm))))
  /\ (forall s l1 l2,
        s_sequence_id s = "X1" -> l_sequence_id l1 = "X1" ->
        l_sequence_id l2 = "X1" ->
        exists df,
          merge (DataFrame_of fasta_columns [s])
            (DataFrame_of taxon_columns [l1; l2]) = Ok df
          /\ rows df = [merge_row s l1; merge_row s l2]
          /\ len df = 2).
Proof.
  split; [|split].
  - rewrite cargar_dataset_loaded. unfold cargar_fasta, cargar_taxon.
    rewrite !DataFrame_of_rows.
    destruct (cargar_fasta_datos archivo_fasta);
      destruct (cargar_taxon_datos archivo_taxon norm);
      split; try (intros [df Hdf]; done); try (intros [? ?]; done).
    intros _. by eexists.
  - intros df ->%cargar_dataset_Ok. simpl. split; [|split; [|split]].
    + apply merge_rows_elem.
    + intros j (s & l & Hs & Hl & Heq & ->)%merge_rows_elem. simpl. split.
      * apply list_elem_of_fmap. by exists s.
      * rewrite Heq. apply list_elem_of_fmap. by exists l.
    + intros k Hk. rewrite con_id_merge_rows.
      destruct Hk as [Hk | Hk]; rewrite (con_id_absent _ _ _ Hk); lia.
    + intros k. apply con_id_merge_rows.
  - intros s l1 l2 Hs Hl1 Hl2. rewrite merge_loaded. eexists. split; [done |].
    unfold merge_rows, matches, len. simpl.
    rewrite !filter_cons_True by congruence. done.
Qed.

Lemma cargar_dataset_inner_join_witness :
  exists df,
    cargar_dataset taxon_ejemplo fasta_ejemplo true = Ok df
    /\ con_id sequence_id "X1.1" (rows df)
       = con_id s_sequence_id "X1.1" (rows (cargar_fasta fasta_ejemplo))
         * con_id l_sequence_id "X1.1"
             (rows (cargar_taxon taxon_ejemplo true))
    /\ len df = 2.
Proof.
  destruct (cargar_dataset_inner_join taxon_ejemplo fasta_ejemplo true)
    as (Hok & Hjoin & _).
  destruct (proj2 Hok) as [df Hdf]; [split; vm_compute; discriminate |].
  exists df. split; [done |]. split; [by apply (Hjoin df Hdf) |].
  revert Hdf. vm_compute. by intros [= <-].
Defined.

End CargarDataset.

(** ** [calcular_estadisticas] *)

Section CalcularEstadisticas.

Lemma getitem_Ok (df : DataFrame JoinedRecord) label campo :
  con_columnas df -> label ∈ joined_columns ->
  getitem df label campo = Ok (map campo (rows df)).
Proof.
  intros Hdf Hl. unfold getitem. by rewrite bool_decide_eq_true_2 by auto.
Qed.

(** With its columns present [calcular_estadisticas] returns. *)
Lemma calcular_estadisticas_Ok (df : DataFrame JoinedRecord) :
  con_columnas df ->
  calcular_estadisticas df
  = Ok (mkEstadisticas (len df)
          (nunique (map sequence_id (rows df)))
          (nunique (map species (rows df)))
          (nunique (map genus (rows df)))
          (nunique (map family (rows df)))
          (nunique (map order (rows df)))
          (nunique (map class (rows df)))
          (nunique (map phylum (rows df)))
          (nunique (map kingdom (rows df)))
          (mean (longitudes_de df)) (median (longitudes_de df))
          (min (longitudes_de df)) (max (longitudes_de df))
          (std (longitudes_de df))).
Proof.
  intros Hdf. unfold calcular_estadisticas.
  rewrite !getitem_Ok by (done || (unfold joined_columns; set_solver)).
  done.
Qed.

(** C2 as stated fails: the frame [pd.DataFrame([])], the one built from an
    empty list of records, has no row and no column, and
    [calcular_estadisticas] raises [KeyError] on it. *)
Lemma calcular_estadisticas_sin_columnas :
  DataFrame_of joined_columns ([] : list JoinedRecord) = mkFrame [] []
  /\ rows (DataFrame_of joined_columns ([] : list JoinedRecord)) = []
  /\ calcular_estadisticas (DataFrame_of joined_columns [])
     = KeyError "dna_sequence".
Proof. repeat split; reflexivity. Qed.

(** The statistics of the frame of two rows. *)
Example calcular_estadisticas_ejemplo :
  calcular_estadisticas df_ejemplo
  = Ok (mkEstadisticas 2 2 1 1 1 1 1 1 1
          (Num 3) (Num 3) (Num 2) (Num 4) (Raiz 2)).
Proof. vm_compute. reflexivity. Qed.

(** C2 (as the code has it): on a frame without rows that has the nine
    columns of a merged frame [calcular_estadisticas] returns, raising
    nothing: the record count and the distinct-value counts are zero and
    the five length statistics are [NaN].  So it is for every empty frame
    [cargar_dataset] returns. *)
Theorem calcular_estadisticas_empty (df : DataFrame JoinedRecord) :
  rows df = [] ->
  (con_columnas df ->
   calcular_estadisticas df
   = Ok (mkEstadisticas 0 0 0 0 0 0 0 0 0 NaN NaN NaN NaN NaN))
  /\ (forall archivo_taxon archivo_fasta norm,
        cargar_dataset archivo_taxon archivo_fasta norm = Ok df ->
        calcular_estadisticas df
        = Ok (mkEstadisticas 0 0 0 0 0 0 0 0 0 NaN NaN NaN NaN NaN)).
Proof.
  intros Hrows.
  assert (con_columnas df ->
          calcular_estadisticas df
          = Ok (mkEstadisticas 0 0 0 0 0 0 0 0 0 NaN NaN NaN NaN NaN)) as H.
  { intros Hdf. rewrite calcular_estadisticas_Ok by done.
    unfold longitudes_de, len. rewrite Hrows. done. }
  split; [done |].
  intros archivo_taxon archivo_fasta norm Hdf. apply H.
  apply cargar_dataset_Ok in Hdf as ->. by intros c Hc.
Qed.

Lemma calcular_estadisticas_empty_witness :
  calcular_estadisticas (mkFrame joined_columns [])
  = Ok (mkEstadisticas 0 0 0 0 0 0 0 0 0 NaN NaN NaN NaN NaN)
  /\ calcular_estadisticas
       (mkFrame joined_columns
          (merge_rows (rows (cargar_fasta [">Z3.1"; "GG"]))
             (rows (cargar_taxon taxon_ejemplo true))))
     = Ok (mkEstadisticas 0 0 0 0 0 0 0 0 0 NaN NaN NaN NaN NaN).
Proof.
  split.
  - apply (calcular_estadisticas_empty (mkFrame joined_columns []));
      [reflexivity | intros c Hc; exact Hc].
  - apply (calcular_estadisticas_empty
             (mkFrame joined_columns
                (merge_rows (rows (cargar_fasta [">Z3.1"; "GG"]))
                   (rows (cargar_taxon taxon_ejemplo true))))
             eq_refl)
      with (archivo_taxon := taxon_ejemplo) (archivo_fasta := [">Z3.1"; "GG"])
           (norm := true).
    reflexivity.
Defined.

(** C10: the standard deviation [calcular_estadisticas] reports is the
    sample one: with two records or more it is the square root of the sum
    of the squared deviations from the mean divided by the number of
    records minus one, and with exactly one record it is [NaN], not 0. *)
Theorem calcular_estadisticas_std (df : DataFrame JoinedRecord) :
  con_columnas df ->
  exists st,
    calcular_estadisticas df = Ok st
    /\ (forall r, rows df = [r] ->
         longitud_std st = NaN /\ longitud_std st <> Num 0)
    /\ (2 <= length (rows df) ->
        longitud_std st
        = Raiz (Qred (desviaciones (longitudes_de df)
                      / inject_Z (Z.of_nat (length (rows df) - 1))))).
Proof.
  intros Hdf. eexists. split; [by apply calcular_estadisticas_Ok |].
  simpl. unfold std, longitudes_de, str_len. rewrite !length_map. split.
  - intros r ->. done.
  - intros Hn. destruct (Nat.leb_spec (length (rows df)) 1); [lia | done].
Qed.

Lemma calcular_estadisticas_std_witness :
  exists st,
    calcular_estadisticas df_ejemplo = Ok st
    /\ longitud_promedio st = Num 3
    /\ longitud_std st = Raiz 2.
Proof.
  destruct (calcular_estadisticas_std df_ejemplo) as (st & Hst & _ & Hstd);
    [intros c Hc; exact Hc |].
  exists st. split; [exact Hst |]. split.
  - revert Hst. vm_compute. by intros [= <-].
  - rewrite Hstd by (simpl; lia). vm_compute. reflexivity.
Defined.

End CalcularEstadisticas.

(** * Further properties of the loader *)

(** ** More on strings *)

Section MoreStrFacts.

Lemma any_lstrip_by p q (s : string) :
  Str.any p s = false -> Str.any p (Str.lstrip_by q s) = false.
Proof.
  induction s as [|c s IH]; simpl; [done |].
  intros [Hc Hs]%orb_false_elim.
  destruct (q c); [by apply IH | simpl; by rewrite Hc, Hs].
Qed.

Lemma any_rstrip_by p q (s : string) :
  Str.any p s = false -> Str.any p (Str.rstrip_by q s) = false.
Proof.
  induction s as [|c s IH]; simpl; [done |].
  intros [Hc Hs]%orb_false_elim. specialize (IH Hs).
  destruct (Str.rstrip_by q s) as [|c' r].
  - destruct (q c); simpl; [done | by rewrite Hc].
  - simpl in *. by rewrite Hc, IH.
Qed.

Lemma any_strip p (s : string) :
  Str.any p s = false -> Str.any p (Str.strip s) = false.
Proof. intros H. by apply any_rstrip_by, any_lstrip_by. Qed.

(** Trimming the right end keeps a first character that is not trimmed. *)
Lemma rstrip_by_head p (s : string) :
  match s with String c _ => p c = false | EmptyString => True end ->
  match Str.rstrip_by p s with
  | String c _ => p c = false
  | EmptyString => True
  end.
Proof.
  destruct s as [|c s]; simpl; [done |]. intros Hc.
  destruct (Str.rstrip_by p s); [by rewrite Hc | done].
Qed.

Lemma rstrip_by_idemp p (s : string) :
  Str.rstrip_by p (Str.rstrip_by p s) = Str.rstrip_by p s.
Proof.
  induction s as [|c s IH]; simpl; [done |].
  destruct (Str.rstrip_by p s) as [|c' r] eqn:Hr.
  - destruct (p c) eqn:Hc; simpl; [done | by rewrite Hc].
  - simpl in *. by rewrite IH.
Qed.

(** A trimmed string has nothing left to trim. *)
Lemma strip_idemp (s : string) : Str.strip (Str.strip s) = Str.strip s.
Proof.
  unfold Str.strip.
  rewrite (lstrip_by_id Str.isspace (Str.rstrip_by _ _)).
  - apply rstrip_by_idemp.
  - apply rstrip_by_head, lstrip_by_head.
Qed.

Lemma map_chars_id f (s : string) :
  Str.all (fun c => Ascii.eqb (f c) c) s = true -> Str.map_chars f s = s.
Proof.
  induction s as [|c s IH]; simpl; [done |].
  intros [Hc Hs]%andb_true_iff. apply Ascii.eqb_eq in Hc.
  by rewrite Hc, IH.
Qed.

Lemma lower_char_not_upper (c : ascii) : Str.isupper (Str.lower_char c) = false.
Proof. destruct c as [[] [] [] [] [] [] [] []]; reflexivity. Qed.

Lemma lower_no_upper (s : string) : Str.any Str.isupper (Str.lower s) = false.
Proof.
  induction s as [|c s IH]; unfold Str.lower in *; simpl; [done |].
  by rewrite lower_char_not_upper, IH.
Qed.

Lemma lower_id (s : string) :
  Str.any Str.isupper s = false -> Str.lower s = s.
Proof.
  induction s as [|c s IH]; unfold Str.lower in *; simpl; [done |].
  intros [Hc Hs]%orb_false_elim. unfold Str.lower_char at 1.
  by rewrite Hc, IH.
Qed.

Lemma replace_gone (a b : ascii) (s : string) :
  a <> b -> Str.any (Ascii.eqb a) (Str.replace a b s) = false.
Proof.
  intros Hab. induction s as [|c s IH]; unfold Str.replace in *; simpl; [done |].
  rewrite IH, orb_false_r. destruct (Ascii.eqb c a) eqn:Hc.
  - by apply Ascii.eqb_neq.
  - rewrite Ascii.eqb_sym. done.
Qed.

Lemma replace_id (a b : ascii) (s : string) :
  Str.any (Ascii.eqb a) s = false -> Str.replace a b s = s.
Proof.
  induction s as [|c s IH]; unfold Str.replace in *; simpl; [done |].
  intros [Hc Hs]%orb_false_elim. rewrite Ascii.eqb_sym in Hc.
  by rewrite Hc, IH.
Qed.

Lemma replace_keeps p (a b : ascii) (s : string) :
  p b = false -> Str.any p s = false -> Str.any p (Str.replace a b s) = false.
Proof.
  intros Hb. induction s as [|c s IH]; unfold Str.replace in *; simpl; [done |].
  intros [Hc Hs]%orb_false_elim. rewrite (IH Hs), orb_false_r.
  by destruct (Ascii.eqb c a).
Qed.

Lemma lstrip_by_append p (marks s : string) :
  Str.all p marks = true ->
  Str.lstrip_by p (marks +:+ s) = Str.lstrip_by p s.
Proof.
  induction marks as [|c marks IH]; simpl; [done |].
  intros [Hc Hm]%andb_true_iff. by rewrite Hc, IH.
Qed.

End MoreStrFacts.

(** ** More on [extraer_id_base] *)

Section MoreExtraerIdBase.

Lemma sin_marca_head (s : string) :
  sin_marca s = true <->
  match s with
  | String c _ => Ascii.eqb ">" c = false
  | EmptyString => True
  end.
Proof.
  destruct s as [|c s]; unfold sin_marca, Str.startswith; [done |].
  by rewrite negb_true_iff, (Ascii.eqb_sym c).
Qed.

Lemma head_prefix p (s1 s2 : string) :
  match s1 +:+ s2 with String c _ => p c = false | EmptyString => True end ->
  match s1 with String c _ => p c = false | EmptyString => True end.
Proof. by destruct s1. Qed.

(** X1: The base identifier is cut from the front of the identifier, after the
    leading markers; it is an accession, a dot and a version of digits, or,
    without such a front, a string without dot; it never starts with the
    marker. *)
Theorem extraer_id_base_shape (s : string) :
  (exists rest,
     Str.lstrip_by (Ascii.eqb ">") s = extraer_id_base s +:+ rest)
  /\ sin_marca (extraer_id_base s) = true
  /\ ((exists a d,
         extraer_id_base s = a +:+ "." +:+ d
         /\ a <> "" /\ Str.all Re.not_dot a = true
         /\ d <> "" /\ Str.all Str.isdigit d = true)
      \/ Str.all Re.not_dot (extraer_id_base s) = true).
Proof.
  unfold extraer_id_base, sin_marca.
  pose proof (lstrip_by_head (Ascii.eqb ">") s) as Hhead.
  set (c := Str.lstrip_by (Ascii.eqb ">") s) in *.
  destruct (Re.match_id c) as [g|] eqn:Hm.
  - apply match_id_Some in Hm
      as (a & d & rest & Hc & -> & Ha & Hall & Hd & Hdall).
    split; [|split].
    + exists rest. rewrite Hc. by rewrite !append_assoc.
    + apply sin_marca_head. rewrite Hc in Hhead.
      apply head_prefix in Hhead. by destruct a.
    + left. by exists a, d.
  - destruct (split_hd_prefix "." c) as [rest Hc].
    pose proof (split_hd_no_sep "." c) as Hdot.
    set (p := hd "" (Str.split "." c)) in *. split; [|split].
    + by exists rest.
    + apply sin_marca_head. rewrite Hc in Hhead.
      by apply head_prefix in Hhead.
    + right. by apply all_not_dot_any.
Qed.

(** X2: Whatever follows the version is dropped, and so are the leading
    markers: an accession, a dot, a version and an annotation that does not
    go on with a digit give the accession, the dot and the version. *)
Theorem extraer_id_base_versioned (marks acc ver rest : string) :
  Str.all (Ascii.eqb ">") marks = true ->
  acc <> "" -> Str.all Re.not_dot acc = true -> sin_marca acc = true ->
  ver <> "" -> Str.all Str.isdigit ver = true ->
  blocked Str.isdigit rest = true ->
  extraer_id_base (marks +:+ acc +:+ "." +:+ ver +:+ rest)
  = acc +:+ "." +:+ ver.
Proof.
  intros Hmarks Hacc Hnd Hsm Hver Hdig Hrest. unfold extraer_id_base.
  rewrite lstrip_by_append by done.
  rewrite lstrip_by_id.
  2:{ apply sin_marca_head in Hsm. by destruct acc. }
  assert (Re.match_id (acc +:+ "." +:+ ver +:+ rest)
          = Some (acc +:+ "." +:+ ver)) as ->; [|done].
  unfold Re.match_id. apply plus_greedy_run; [done | done | done |]. simpl.
  apply plus_greedy_run; [done | done | done |]. done.
Qed.

Lemma extraer_id_base_versioned_witness :
  extraer_id_base (">" +:+ "MG559732" +:+ "." +:+ "1" +:+ ".<1.>690")
  = "MG559732" +:+ "." +:+ "1".
Proof.
  apply (extraer_id_base_versioned ">" "MG559732" "1" ".<1.>690");
    solve [reflexivity | discriminate].
Defined.

(** Two ways to cut a string at a dot after a dot-free front agree. *)
Lemma append_dot_inj (acc a t u : string) :
  Str.all Re.not_dot acc = true -> Str.all Re.not_dot a = true ->
  acc +:+ String "." t = a +:+ String "." u -> acc = a /\ t = u.
Proof.
  revert a. induction acc as [|x acc IH]; intros [|y a] Hacc Ha Heq;
    cbn [String.append Str.all] in *.
  - by injection Heq as ->.
  - injection Heq as <- _. by apply andb_true_iff in Ha as [Hy _].
  - injection Heq as -> _. by apply andb_true_iff in Hacc as [Hx _].
  - injection Heq as <- Heq.
    apply andb_true_iff in Hacc as [_ Hacc].
    apply andb_true_iff in Ha as [_ Ha].
    destruct (IH a Hacc Ha Heq) as [-> ->]. done.
Qed.

Lemma split_hd_dot (acc t : string) :
  Str.all Re.not_dot acc = true ->
  hd "" (Str.split "." (acc +:+ String "." t)) = acc.
Proof.
  induction acc as [|x acc IH]; cbn [String.append Str.all Str.split].
  - intros _. by rewrite Ascii.eqb_refl.
  - intros [Hx Hacc]%andb_true_iff. unfold Re.not_dot in Hx.
    apply negb_true_iff in Hx. rewrite Hx. specialize (IH Hacc).
    destruct (Str.split "." (acc +:+ String "." t)); simpl in *; by subst.
Qed.

Lemma not_dot_any (s : string) :
  Str.all Re.not_dot s = true -> Str.any (fun c => Ascii.eqb c ".") s = false.
Proof.
  induction s as [|x s IH]; cbn [Str.all Str.any]; [done |].
  intros [Hx Hs]%andb_true_iff. unfold Re.not_dot in Hx.
  apply negb_true_iff in Hx. by rewrite Hx, IH.
Qed.

(** X3: Without a version the identifier is cut at its first dot: an accession
    whose dot is not followed by a digit gives the accession alone. *)
Theorem extraer_id_base_unversioned (marks acc rest : string) :
  Str.all (Ascii.eqb ">") marks = true ->
  Str.all Re.not_dot acc = true -> sin_marca acc = true ->
  blocked Str.isdigit rest = true ->
  extraer_id_base (marks +:+ acc +:+ "." +:+ rest) = acc
  /\ extraer_id_base (marks +:+ acc) = acc.
Proof.
  intros Hmarks Hnd Hsm Hrest. unfold extraer_id_base.
  apply sin_marca_head in Hsm.
  assert (Re.match_id (acc +:+ String "." rest) = None) as Hno.
  { destruct (Re.match_id _) as [g|] eqn:Hm; [|done]. exfalso.
    apply match_id_Some in Hm as (a & d & r & Heq & _ & Ha & Halla & Hd & Hdall).
    change (a +:+ "." +:+ d +:+ r) with (a +:+ String "." (d +:+ r)) in Heq.
    destruct (append_dot_inj _ _ _ _ Hnd Halla Heq) as [_ ->].
    destruct d as [|z d]; [done |]. cbn [String.append Str.all blocked] in *.
    apply andb_true_iff in Hdall as [Hz _]. by rewrite Hz in Hrest. }
  rewrite (lstrip_by_append _ marks (acc +:+ "." +:+ rest)) by done.
  rewrite (lstrip_by_append _ marks acc) by done. split.
  - change (acc +:+ "." +:+ rest) with (acc +:+ String "." rest).
    rewrite lstrip_by_id.
    + by rewrite Hno, split_hd_dot.
    + destruct acc; [|done]. cbn [String.append]. done.
  - rewrite lstrip_by_id by done.
    rewrite match_id_no_dot by done.
    by rewrite split_no_sep by by apply not_dot_any.
Qed.

Lemma extraer_id_base_unversioned_witness :
  extraer_id_base (">" +:+ "MG559732" +:+ "." +:+ "<1.>690") = "MG559732"
  /\ extraer_id_base (">" +:+ "MG559732") = "MG559732".
Proof.
  apply (extraer_id_base_unversioned ">" "MG559732" "<1.>690"); reflexivity.
Defined.

End MoreExtraerIdBase.

(** ** More on [normalizar_nombre_taxonomico] *)

Section MoreNormalizar.

Lemma normalizar_sin_espacio (nombre : string) :
  Str.any (Ascii.eqb " ") (normalizar_nombre_taxonomico nombre) = false.
Proof.
  unfold normalizar_nombre_taxonomico.
  destruct (Str.is_empty nombre); [done |].
  apply any_strip. by apply replace_gone.
Qed.

(** [lower] leaves no character that it would change. *)
Lemma normalizar_sin_mayuscula (nombre : string) :
  Str.any Str.isupper (normalizar_nombre_taxonomico nombre) = false.
Proof.
  unfold normalizar_nombre_taxonomico.
  destruct (Str.is_empty nombre); [done |].
  apply any_strip. apply replace_keeps; [done | apply lower_no_upper].
Qed.

Lemma any_impl (p q : ascii -> bool) (s : string) :
  (forall c, p c = true -> q c = true) ->
  Str.any q s = false -> Str.any p s = false.
Proof.
  intros Hpq. induction s as [|c s IH]; cbn [Str.any]; [done |].
  intros [Hc Hs]%orb_false_elim. rewrite (IH Hs), orb_false_r.
  destruct (p c) eqn:Hp; [|done]. by rewrite (Hpq c Hp) in Hc.
Qed.

Lemma mayuscula_ascii_isupper (c : ascii) :
  mayuscula_ascii c = true -> Str.isupper c = true.
Proof. unfold mayuscula_ascii, Str.isupper. cbv zeta. by intros ->. Qed.

(** X4: A normalized name has no space and none of the letters [A] to
    [Z]. *)
Theorem normalizar_nombre_taxonomico_clean (nombre : string) :
  Str.any (Ascii.eqb " ") (normalizar_nombre_taxonomico nombre) = false
  /\ Str.any mayuscula_ascii (normalizar_nombre_taxonomico nombre) = false.
Proof.
  split; [apply normalizar_sin_espacio |].
  apply (any_impl _ _ _ mayuscula_ascii_isupper), normalizar_sin_mayuscula.
Qed.

(** X5: Normalizing a normalized name changes nothing. *)
Theorem normalizar_nombre_taxonomico_idempotent (nombre : string) :
  normalizar_nombre_taxonomico (normalizar_nombre_taxonomico nombre)
  = normalizar_nombre_taxonomico nombre.
Proof.
  pose proof (normalizar_sin_espacio nombre) as Hsp.
  pose proof (normalizar_sin_mayuscula nombre) as Hup.
  unfold normalizar_nombre_taxonomico at 1.
  destruct (Str.is_empty _) eqn:He.
  - destruct (normalizar_nombre_taxonomico nombre); done.
  - rewrite lower_id, replace_id by done.
    unfold normalizar_nombre_taxonomico.
    destruct (Str.is_empty nombre); [done |]. apply strip_idemp.
Qed.

End MoreNormalizar.

(** ** More on the pattern of a segment and on [parsear_taxonomia] *)

Section MoreParsearTaxonomia.

(** A successful lazy quantifier took a non-empty run of the class and the
    rest of the pattern accepted what follows. *)
Lemma plus_lazy_Some {A} cls acc s (k : string -> string -> option A) r :
  Re.plus_lazy cls acc s k = Some r ->
  exists m rest, s = m +:+ rest /\ m <> "" /\ Str.all cls m = true
                 /\ k (acc +:+ m) rest = Some r.
Proof.
  revert acc. induction s as [|c s IH]; intros acc; simpl; [done |].
  destruct (cls c) eqn:Hc; [|done].
  destruct (k (acc +:+ String c "") s) as [r'|] eqn:Hk.
  - intros [= ->]. exists (String c ""), s. simpl. by rewrite Hc.
  - intros Hl. destruct (IH _ Hl) as (m & rest & -> & _ & Hm & Hk').
    exists (String c m), rest. simpl. rewrite Hc, Hm.
    rewrite append_snoc in Hk'. done.
Qed.

Lemma at_end_cases (s : string) :
  Re.at_end s = true <-> s = "" \/ s = String line_feed "".
Proof.
  destruct s as [|c [|c' s]]; cbn [Re.at_end]; split; try done; auto.
  - intros ->%Ascii.eqb_eq. by right.
  - intros [|[= ->]]; [done |]. apply Ascii.eqb_refl.
  - by intros [|].
Qed.

Lemma at_end_blocked (s : string) :
  Re.at_end s = true -> blocked Str.isdigit s = true.
Proof. by intros [-> | ->]%at_end_cases. Qed.

(** The pattern accepts a segment with what [$] allows after it. *)
Lemma match_rank_segmento_end (p : ascii) (name d r5 : string) :
  Re.rank_letter p = true ->
  name <> "" -> Str.all Re.dot name = true ->
  d <> "" -> Str.all Str.isdigit d = true -> Re.at_end r5 = true ->
  Re.match_rank (segmento p name d +:+ r5) = Some (p, name).
Proof.
  intros Hp Hname Hdot Hd Hdigits Hend. unfold Re.match_rank, segmento.
  cbn [String.append]. rewrite Hp. rewrite !append_assoc.
  cbn [String.append Re.lit]. rewrite !Ascii.eqb_refl.
  apply plus_lazy_first; [done | done | |].
  - intros m1 m2 _ _ Hm2. destruct m2 as [|c m2]; [done |].
    cbn [String.append Re.lit].
    destruct (Ascii.eqb c "_"); [|done]. apply digits_blocked.
  - cbn [Re.lit]. rewrite Ascii.eqb_refl.
    apply plus_greedy_run; [done | done | by apply at_end_blocked |].
    by rewrite Hend.
Qed.

(** What the pattern accepted. *)
Lemma match_rank_Some (parte : string) (p : ascii) (nombre : string) :
  Re.match_rank parte = Some (p, nombre) ->
  Re.rank_letter p = true /\ nombre <> ""
  /\ Str.all Re.dot nombre = true
  /\ exists d,
       d <> "" /\ Str.all Str.isdigit d = true
       /\ (parte = segmento p nombre d
           \/ parte = segmento p nombre d +:+ String line_feed "").
Proof.
  unfold Re.match_rank. destruct parte as [|p' r0]; [done |].
  destruct (Re.rank_letter p') eqn:Hp; [|done].
  destruct r0 as [|u1 r1]; cbn [Re.lit]; [done |].
  destruct (Ascii.eqb u1 "_") eqn:Hu1; [|done].
  destruct r1 as [|u2 r2]; cbn [Re.lit]; [done |].
  destruct (Ascii.eqb u2 "_") eqn:Hu2; [|done].
  apply Ascii.eqb_eq in Hu1 as ->. apply Ascii.eqb_eq in Hu2 as ->.
  intros (m & r3 & -> & Hm & Hdot & Hk)%plus_lazy_Some.
  cbn [String.append] in Hk.
  destruct r3 as [|u3 r4]; cbn [Re.lit] in Hk; [done |].
  destruct (Ascii.eqb u3 "_") eqn:Hu3; [|done].
  apply Ascii.eqb_eq in Hu3 as ->.
  apply plus_greedy_Some in Hk as (d & r5 & -> & Hd & Hdig & Hk).
  destruct (Re.at_end r5) eqn:Hend; [|done].
  injection Hk as <- <-. repeat split; try done.
  exists d. repeat split; try done. unfold segmento.
  apply at_end_cases in Hend as [-> | ->].
  - left. by rewrite append_nil_r.
  - right. cbn [String.append]. by rewrite !append_assoc.
Qed.

(** X6: The pattern accepts exactly a rank letter, two underscores, a non-empty
    name without line feed, an underscore and a non-empty run of digits,
    with at most one line feed after them; the name captured runs up to the
    last underscore. *)
Theorem match_rank_iff (parte : string) (p : ascii) (nombre : string) :
  Re.match_rank parte = Some (p, nombre) <->
  Re.rank_letter p = true /\ nombre <> ""
  /\ Str.all Re.dot nombre = true
  /\ exists d,
       d <> "" /\ Str.all Str.isdigit d = true
       /\ (parte = segmento p nombre d
           \/ parte = segmento p nombre d +:+ String line_feed "").
Proof.
  split; [apply match_rank_Some |].
  intros (Hp & Hn & Hdot & d & Hd & Hdig & [-> | ->]).
  - by apply match_rank_segmento.
  - by apply match_rank_segmento_end.
Qed.

Lemma match_rank_iff_witness :
  Re.match_rank (segmento "g" "Homo_5" "7") = Some ("g"%char, "Homo_5").
Proof.
  apply (match_rank_iff (segmento "g" "Homo_5" "7") "g" "Homo_5").
  repeat split; try done. exists "7". repeat split; try done. by left.
Defined.

(** A segment the pattern accepts writes the key of its rank. *)
Lemma parsear_parte_match norm t parte p nombre :
  Re.match_rank parte = Some (p, nombre) ->
  parsear_parte norm t parte = <[clave p := valor norm nombre]> t.
Proof.
  intros Hm. unfold parsear_parte, valor. rewrite Hm.
  apply match_rank_Some in Hm as (Hp & _).
  by destruct (rank_letter_cases p Hp) as [->|[->|[->|[->|[->|[->| ->]]]]]].
Qed.

Lemma parsear_parte_lookup norm t parte key :
  parsear_parte norm t parte !! key
  = match candidato norm key parte with
    | Some v => Some v
    | None => t !! key
    end.
Proof.
  unfold candidato.
  destruct (Re.match_rank parte) as [[p nombre]|] eqn:Hm.
  - rewrite (parsear_parte_match _ _ _ _ _ Hm).
    destruct (decide (clave p = key)) as [<- | Hne].
    + apply lookup_insert_eq.
    + by apply lookup_insert_ne.
  - unfold parsear_parte. by rewrite Hm.
Qed.

Lemma parsear_taxonomia_lookup (taxonomia_str : string) (norm : bool)
    (key : string) :
  parsear_taxonomia taxonomia_str norm !! key
  = last (omap (candidato norm key) (Str.split ";" taxonomia_str)).
Proof.
  unfold parsear_taxonomia.
  induction (Str.split ";" taxonomia_str) as [|parte partes IH] using rev_ind.
  - done.
  - rewrite foldl_snoc, omap_app, parsear_parte_lookup. cbn [omap list_omap].
    destruct (candidato norm key parte) as [v|].
    + by rewrite last_snoc.
    + by rewrite app_nil_r.
Qed.

(** X7: The value of a key is the name of the last segment of its rank, and a
    key that no segment has is absent. *)
Theorem parsear_taxonomia_last (taxonomia_str : string) (norm : bool)
    (key : string) :
  parsear_taxonomia taxonomia_str norm !! key
  = last (omap (candidato norm key) (Str.split ";" taxonomia_str)).
Proof. apply parsear_taxonomia_lookup. Qed.

Lemma clave_in_claves (p : ascii) : clave p ∈ claves.
Proof.
  unfold clave, claves.
  repeat (destruct (Ascii.eqb p _); [set_solver |]). set_solver.
Qed.

(** X8: Only the seven rank keys are ever bound. *)
Theorem parsear_taxonomia_keys (taxonomia_str : string) (norm : bool)
    (key : string) :
  is_Some (parsear_taxonomia taxonomia_str norm !! key) -> key ∈ claves.
Proof.
  rewrite parsear_taxonomia_lookup. intros [v Hv].
  apply last_Some_elem_of, list_elem_of_omap in Hv as (parte & _ & Hc).
  unfold candidato in Hc.
  destruct (Re.match_rank parte) as [[p nombre]|]; [|done].
  destruct (decide (clave p = key)) as [<- |]; [|done].
  apply clave_in_claves.
Qed.

Lemma parsear_taxonomia_keys_witness : "genus" ∈ claves.
Proof.
  apply (parsear_taxonomia_keys "g__Homo_5" true "genus").
  vm_compute. by eexists.
Defined.

(** X9: Every name bound is a name captured in a segment of the input; with
    normalization it has no space, without it is not empty. *)
Theorem parsear_taxonomia_values (taxonomia_str : string) (norm : bool)
    (key v : string) :
  parsear_taxonomia taxonomia_str norm !! key = Some v ->
  (exists parte p nombre,
     parte ∈ Str.split ";" taxonomia_str
     /\ Re.match_rank parte = Some (p, nombre)
     /\ key = clave p /\ v = valor norm nombre)
  /\ (if norm then Str.any (Ascii.eqb " ") v = false else v <> "").
Proof.
  rewrite parsear_taxonomia_lookup. intros Hv.
  apply last_Some_elem_of, list_elem_of_omap in Hv as (parte & Hin & Hc).
  unfold candidato in Hc.
  destruct (Re.match_rank parte) as [[p nombre]|] eqn:Hm; [|done].
  destruct (decide (clave p = key)) as [<- |]; [|done].
  injection Hc as <-. split; [by exists parte, p, nombre |].
  unfold valor. destruct norm.
  - apply normalizar_sin_espacio.
  - by apply match_rank_Some in Hm as (_ & Hn & _).
Qed.

Lemma parsear_taxonomia_values_witness :
  (exists parte p nombre,
     parte ∈ Str.split ";" "k__Animalia_1;g__Homo sapiens_5"
     /\ Re.match_rank parte = Some (p, nombre)
     /\ "genus" = clave p /\ "homo_sapiens" = valor true nombre)
  /\ Str.any (Ascii.eqb " ") "homo_sapiens" = false.
Proof.
  apply (parsear_taxonomia_values "k__Animalia_1;g__Homo sapiens_5" true
           "genus" "homo_sapiens").
  vm_compute. reflexivity.
Defined.

Lemma split_not_nil sep (s : string) : Str.split sep s <> [].
Proof.
  destruct s as [|c s]; cbn [Str.split]; [done |].
  destruct (Ascii.eqb c sep); [done |]. by destruct (Str.split sep s).
Qed.

Lemma split_append sep (a b : string) :
  Str.split sep (a +:+ String sep b) = (Str.split sep a ++ Str.split sep b)%list.
Proof.
  induction a as [|c a IH]; cbn [String.append Str.split].
  - by rewrite Ascii.eqb_refl.
  - destruct (Ascii.eqb c sep); [by rewrite IH |].
    rewrite IH. pose proof (split_not_nil sep a).
    by destruct (Str.split sep a).
Qed.

Lemma foldl_parsear_parte_union norm t partes :
  foldl (parsear_parte norm) t partes
  = foldl (parsear_parte norm) ∅ partes ∪ t.
Proof.
  induction partes as [|parte partes IH] using rev_ind.
  - simpl. by rewrite (left_id_L ∅ (∪)).
  - rewrite !foldl_snoc, IH. apply map_eq. intros key.
    rewrite parsear_parte_lookup, !lookup_union, parsear_parte_lookup.
    destruct (candidato norm key parte); [by destruct (t !! key) | done].
Qed.

(** X10: Two lineage strings joined with a semicolon parse to the bindings of
    the second over those of the first. *)
Theorem parsear_taxonomia_append (a b : string) (norm : bool) :
  parsear_taxonomia (a +:+ ";" +:+ b) norm
  = parsear_taxonomia b norm ∪ parsear_taxonomia a norm.
Proof.
  unfold parsear_taxonomia.
  change (a +:+ ";" +:+ b) with (a +:+ String ";" b).
  rewrite split_append, foldl_app. apply foldl_parsear_parte_union.
Qed.

End MoreParsearTaxonomia.

(** ** [cargar_taxon] *)

Section CargarTaxon.

Lemma split_con_sep sep (s : string) :
  Str.any (fun c => Ascii.eqb c sep) s = true ->
  exists a b t, Str.split sep s = a :: b :: t.
Proof.
  induction s as [|c s IH]; cbn [Str.any Str.split]; [done |].
  destruct (Ascii.eqb c sep) eqn:Hc.
  - intros _. pose proof (split_not_nil sep s).
    destruct (Str.split sep s) as [|b t]; [done |]. by exists "", b, t.
  - intros Hs. destruct (IH Hs) as (a & b & t & ->). by exists (String c a), b, t.
Qed.

Lemma con_tab_no_vacia (linea : string) :
  con_tab linea = true -> Str.is_empty (Str.strip linea) = false.
Proof. unfold con_tab. by destruct (Str.strip linea). Qed.

(** A line with a tabulation adds the row of its first two fields. *)
Lemma cargar_taxon_linea_con_tab norm datos linea :
  con_tab linea = true ->
  cargar_taxon_linea norm datos linea
  = (datos ++ [fila_de_linea norm linea])%list.
Proof.
  intros Htab. unfold cargar_taxon_linea, fila_de_linea, campos.
  rewrite (con_tab_no_vacia _ Htab).
  destruct (split_con_sep "009" _ Htab) as (a & b & t & ->). done.
Qed.

(** A line without tabulation adds nothing. *)
Lemma cargar_taxon_linea_sin_tab norm datos linea :
  con_tab linea = false -> cargar_taxon_linea norm datos linea = datos.
Proof.
  intros Htab. unfold cargar_taxon_linea.
  destruct (Str.is_empty _); [done |]. by rewrite split_no_sep.
Qed.

Lemma foldl_cargar_taxon_linea norm datos lineas :
  foldl (cargar_taxon_linea norm) datos lineas
  = (datos ++ map (fila_de_linea norm)
                (filter (fun l => con_tab l = true) lineas))%list.
Proof.
  induction lineas as [|l lineas IH] using rev_ind.
  - simpl. by rewrite app_nil_r.
  - rewrite foldl_snoc, IH, filter_app, map_app, app_assoc.
    destruct (con_tab l) eqn:Hl.
    + rewrite cargar_taxon_linea_con_tab by done.
      by rewrite (filter_cons_True (fun l => con_tab l = true)) by done.
    + rewrite cargar_taxon_linea_sin_tab by done.
      rewrite (filter_cons_False (fun l => con_tab l = true))
        by (rewrite Hl; done).
      simpl. by rewrite !app_nil_r.
Qed.

(** X11: The rows of [cargar_taxon] are, in file order, one row for each line
    that has a tabulation once stripped, built from the first two fields
    of the line; the other lines, blank ones among them, give no row and
    fields after the second are not read. *)
Theorem cargar_taxon_rows (archivo_taxon : list string) (norm : bool) :
  cargar_taxon_datos archivo_taxon norm
  = map (fila_de_linea norm)
      (filter (fun l => con_tab l = true) archivo_taxon).
Proof. unfold cargar_taxon_datos. by rewrite foldl_cargar_taxon_linea. Qed.

(** X12: Loading two lineage files one after the other gives the rows of the
    first followed by the rows of the second. *)
Theorem cargar_taxon_app (archivo1 archivo2 : list string) (norm : bool) :
  cargar_taxon_datos (archivo1 ++ archivo2)%list norm
  = (cargar_taxon_datos archivo1 norm ++ cargar_taxon_datos archivo2 norm)%list.
Proof.
  unfold cargar_taxon_datos.
  by rewrite !foldl_cargar_taxon_linea, filter_app, map_app.
Qed.

Lemma rstrip_by_all p (w : string) :
  Str.all p w = true -> Str.rstrip_by p w = "".
Proof.
  induction w as [|c w IH]; cbn [Str.all Str.rstrip_by]; [done |].
  intros [Hc Hw]%andb_true_iff. by rewrite (IH Hw), Hc.
Qed.

Lemma rstrip_by_append p (y w : string) :
  Str.all p w = true -> Str.rstrip_by p (y +:+ w) = Str.rstrip_by p y.
Proof.
  intros Hw. induction y as [|c y IH]; cbn [String.append Str.rstrip_by].
  - by apply rstrip_by_all.
  - by rewrite IH.
Qed.

Lemma lstrip_by_all p (w : string) :
  Str.all p w = true -> Str.lstrip_by p w = "".
Proof.
  induction w as [|c w IH]; cbn [Str.all Str.lstrip_by]; [done |].
  intros [Hc Hw]%andb_true_iff. by rewrite Hc, IH.
Qed.

Lemma lstrip_by_append_cases p (a b : string) :
  Str.lstrip_by p (a +:+ b) = Str.lstrip_by p a +:+ b
  \/ Str.all p a = true.
Proof.
  induction a as [|c a IH]; cbn [String.append Str.lstrip_by Str.all].
  - by right.
  - destruct (p c); [done | by left].
Qed.

(** X13: A line whose lineage field is empty or blank adds no row: the line is
    stripped before it is split, so its tabulation is gone. *)
Theorem cargar_taxon_linea_blank_lineage
    (norm : bool) (datos : list LineageRecord) (id ws : string) :
  Str.any (fun c => Ascii.eqb c "009") id = false ->
  Str.all Str.isspace ws = true ->
  cargar_taxon_linea norm datos (id +:+ tab +:+ ws) = datos.
Proof.
  intros Hid Hws. apply cargar_taxon_linea_sin_tab. unfold con_tab, Str.strip.
  assert (Str.all Str.isspace (tab +:+ ws) = true) as Htw by done.
  destruct (lstrip_by_append_cases Str.isspace id (tab +:+ ws)) as [-> | Hsp].
  - rewrite rstrip_by_append by done. by apply any_rstrip_by, any_lstrip_by.
  - rewrite lstrip_by_all; [done |]. by rewrite all_append, Hsp.
Qed.

Lemma cargar_taxon_linea_blank_lineage_witness :
  cargar_taxon_linea true [] ("MG559732.1" +:+ tab +:+ "  ") = [].
Proof.
  apply (cargar_taxon_linea_blank_lineage true [] "MG559732.1" "  ");
    reflexivity.
Defined.

Lemma get_sin_espacio taxonomia_str key :
  sin_espacio (get (parsear_taxonomia taxonomia_str true) key).
Proof.
  unfold get.
  destruct (parsear_taxonomia taxonomia_str true !! key) as [v|] eqn:Hv;
    [|done].
  rewrite parsear_taxonomia_lookup in Hv.
  apply last_Some_elem_of, list_elem_of_omap in Hv as (parte & _ & Hc).
  unfold candidato in Hc.
  destruct (Re.match_rank parte) as [[p nombre]|]; [|done].
  destruct (decide _); [|done]. injection Hc as <-. simpl.
  apply normalizar_sin_espacio.
Qed.

Lemma cargar_taxon_datos_sin_espacio (archivo_taxon : list string) (norm : bool)
    (r : LineageRecord) :
  r ∈ cargar_taxon_datos archivo_taxon norm ->
  canonico (l_sequence_id r)
  /\ (norm = true ->
      sin_espacio (l_kingdom r) /\ sin_espacio (l_phylum r) /\ sin_espacio (l_class r)
      /\ sin_espacio (l_order r) /\ sin_espacio (l_family r) /\ sin_espacio (l_genus r)
      /\ sin_espacio (l_species r)).
Proof.
  unfold cargar_taxon_datos. rewrite foldl_cargar_taxon_linea. simpl.
  intros (l & -> & _)%list_elem_of_fmap. split.
  - by apply (extraer_id_base_fixed (hd "" (campos l))).
  - intros ->. repeat split; apply get_sin_espacio.
Qed.

(** X14: The identifier of every lineage row is canonical, and with
    normalization no rank field of a row has a space. *)
Theorem cargar_taxon_rows_clean (archivo_taxon : list string) (norm : bool)
    (r : LineageRecord) :
  r ∈ cargar_taxon_datos archivo_taxon norm ->
  canonico (l_sequence_id r)
  /\ (norm = true ->
      sin_espacio (l_kingdom r) /\ sin_espacio (l_phylum r) /\ sin_espacio (l_class r)
      /\ sin_espacio (l_order r) /\ sin_espacio (l_family r) /\ sin_espacio (l_genus r)
      /\ sin_espacio (l_species r)).
Proof. apply cargar_taxon_datos_sin_espacio. Qed.

Lemma cargar_taxon_rows_clean_witness :
  canonico "X1.1"
  /\ (true = true ->
      sin_espacio "animalia" /\ sin_espacio "" /\ sin_espacio "" /\ sin_espacio "" /\ sin_espacio ""
      /\ sin_espacio "" /\ sin_espacio "homo_sapiens").
Proof.
  apply (cargar_taxon_rows_clean taxon_ejemplo true
           (mkLineage "X1.1" "animalia" "" "" "" "" "" "homo_sapiens")).
  vm_compute. left.
Defined.

End CargarTaxon.

(** ** More on [cargar_fasta] *)

Section MoreCargarFasta.

Lemma guardar_datos ds i sq :
  guardar (mkFasta ds i sq) = (ds ++ guardar (mkFasta [] i sq))%list.
Proof. unfold guardar. simpl. destruct i; [done | by rewrite app_nil_r]. Qed.

(** The records already emitted stay in front of what the loop adds. *)
Lemma foldl_cargar_fasta_datos ds i sq lineas :
  guardar (foldl cargar_fasta_linea (mkFasta ds i sq) lineas)
  = (ds ++ guardar (foldl cargar_fasta_linea (mkFasta [] i sq) lineas))%list.
Proof.
  revert ds i sq. induction lineas as [|l lineas IH]; intros ds i sq.
  - simpl. apply guardar_datos.
  - cbn [foldl]. destruct (es_cabecera l) eqn:Hl.
    + rewrite !linea_cabecera by done.
      rewrite IH, (IH (guardar (mkFasta [] i sq))), (guardar_datos ds).
      by rewrite app_assoc.
    + rewrite !linea_secuencia by done. cbn [id_actual datos secuencia_actual].
      destruct i; apply IH.
Qed.

Lemma foldl_sin_cabecera ds id sq body :
  sin_cabecera body ->
  foldl cargar_fasta_linea (mkFasta ds (Some id) sq) body
  = mkFasta ds (Some id) (sq ++ map Str.strip body).
Proof.
  revert sq. induction body as [|l body IH]; intros sq Hbody.
  - simpl. by rewrite app_nil_r.
  - apply Forall_cons in Hbody as [Hl Hbody]. cbn [foldl].
    rewrite linea_secuencia by done. cbn [id_actual datos secuencia_actual].
    rewrite IH by done. cbn [map]. by rewrite <- app_assoc.
Qed.

Lemma cargar_fasta_datos_cabecera (a : list string) (h : string)
    (b : list string) :
  es_cabecera h = true ->
  cargar_fasta_datos (a ++ h :: b)
  = (cargar_fasta_datos a ++ cargar_fasta_datos (h :: b))%list.
Proof.
  intros Hh. unfold cargar_fasta_datos.
  rewrite foldl_app. cbn [foldl]. rewrite !linea_cabecera by done.
  rewrite foldl_cargar_fasta_datos. done.
Qed.

(** X15: A sequence file written after another one, or cut before one of its
    header lines, loads as the records of the first part followed by the
    records of the second. *)
Theorem cargar_fasta_app (archivo1 : list string) (h : string)
    (archivo2 : list string) :
  es_cabecera h = true ->
  cargar_fasta_datos (archivo1 ++ h :: archivo2)
  = (cargar_fasta_datos archivo1 ++ cargar_fasta_datos (h :: archivo2))%list.
Proof. apply cargar_fasta_datos_cabecera. Qed.

Lemma cargar_fasta_app_witness :
  cargar_fasta_datos ([">A.1"; "ACGT"] ++ ">B.2" :: ["GG"])
  = (cargar_fasta_datos [">A.1"; "ACGT"]
     ++ cargar_fasta_datos (">B.2" :: ["GG"]))%list.
Proof. apply (cargar_fasta_app [">A.1"; "ACGT"] ">B.2" ["GG"]). reflexivity. Defined.

(** X16: The first block of a file gives the first record: a header line, lines
    that are not headers, and then the end of the file or the next header
    line, load as the record of the block followed by the records of the
    rest. *)
Theorem cargar_fasta_first_block (h : string) (body rest : list string) :
  es_cabecera h = true ->
  sin_cabecera body ->
  (rest = [] \/ exists h' rest', rest = h' :: rest' /\ es_cabecera h' = true) ->
  cargar_fasta_datos (h :: body ++ rest)
  = registro h body :: cargar_fasta_datos rest.
Proof.
  intros Hh Hbody Hrest.
  assert (cargar_fasta_datos (h :: body) = [registro h body]) as Hblock.
  { unfold cargar_fasta_datos. cbn [foldl]. rewrite linea_cabecera by done.
    by rewrite foldl_sin_cabecera. }
  destruct Hrest as [-> | (h' & rest' & -> & Hh')].
  - by rewrite app_nil_r.
  - change (h :: body ++ h' :: rest')%list
      with ((h :: body) ++ h' :: rest')%list.
    by rewrite cargar_fasta_datos_cabecera, Hblock.
Qed.

Lemma cargar_fasta_first_block_witness :
  cargar_fasta_datos (">A.1 cox1" :: ["AC"; " GT "] ++ [">B.2"; "GG"])
  = registro ">A.1 cox1" ["AC"; " GT "] :: cargar_fasta_datos [">B.2"; "GG"].
Proof.
  apply (cargar_fasta_first_block ">A.1 cox1" ["AC"; " GT "] [">B.2"; "GG"]).
  - reflexivity.
  - repeat constructor.
  - right. by exists ">B.2", ["GG"].
Defined.

Lemma guardar_linea_ids st l :
  es_cabecera l = false ->
  map s_sequence_id (guardar (cargar_fasta_linea st l))
  = map s_sequence_id (guardar st).
Proof.
  intros Hl. rewrite linea_secuencia by done. unfold guardar.
  destruct (id_actual st) eqn:Hid; simpl; rewrite ?Hid; [|done].
  by rewrite !map_app.
Qed.

(** X17: The identifiers of the records are those of the header lines, in file
    order; two headers with one identifier give two records. *)
Theorem cargar_fasta_ids (archivo_fasta : list string) :
  map s_sequence_id (cargar_fasta_datos archivo_fasta)
  = map id_cabecera (filter (fun l => es_cabecera l = true) archivo_fasta).
Proof.
  unfold cargar_fasta_datos.
  induction archivo_fasta as [|l lineas IH] using rev_ind; [done |].
  rewrite foldl_snoc, filter_app, map_app.
  destruct (es_cabecera l) eqn:Hl.
  - rewrite linea_cabecera by done. unfold guardar at 1. simpl.
    rewrite map_app, IH.
    by rewrite (filter_cons_True (fun l => es_cabecera l = true)) by done.
  - rewrite guardar_linea_ids, IH by done.
    rewrite (filter_cons_False (fun l => es_cabecera l = true))
      by (rewrite Hl; done).
    simpl. by rewrite app_nil_r.
Qed.

Lemma join_app (l1 l2 : list string) :
  Str.join (l1 ++ l2) = Str.join l1 +:+ Str.join l2.
Proof.
  induction l1 as [|s l1 IH]; simpl; [done |].
  by rewrite IH, append_assoc.
Qed.

Lemma misma_secuencia_linea st st' l :
  misma_secuencia st st' ->
  misma_secuencia (cargar_fasta_linea st l) (cargar_fasta_linea st' l).
Proof.
  intros (Hd & Hi & Hs). destruct (es_cabecera l) eqn:Hl.
  - rewrite !linea_cabecera by done. unfold misma_secuencia, guardar. simpl.
    rewrite Hd, Hi, Hs. done.
  - rewrite !linea_secuencia by done. rewrite <- Hi.
    destruct (id_actual st) eqn:E; unfold misma_secuencia.
    + simpl. by rewrite !join_app, Hs, Hd.
    + repeat split; congruence.
Qed.

Lemma misma_secuencia_foldl st st' lineas :
  misma_secuencia st st' ->
  misma_secuencia (foldl cargar_fasta_linea st lineas)
    (foldl cargar_fasta_linea st' lineas).
Proof.
  revert st st'. induction lineas as [|l lineas IH]; intros st st' H; [done |].
  simpl. by apply IH, misma_secuencia_linea.
Qed.

Lemma misma_secuencia_guardar st st' :
  misma_secuencia st st' -> guardar st = guardar st'.
Proof. intros (Hd & Hi & Hs). unfold guardar. by rewrite Hd, Hi, Hs. Qed.

(** X18: A blank line, or one of whitespace only, changes nothing wherever it
    stands in the file. *)
Theorem cargar_fasta_blank_line (a : list string) (l : string)
    (b : list string) :
  Str.strip l = "" ->
  cargar_fasta_datos (a ++ l :: b) = cargar_fasta_datos (a ++ b).
Proof.
  intros Hl. unfold cargar_fasta_datos. rewrite !foldl_app. cbn [foldl].
  apply misma_secuencia_guardar, misma_secuencia_foldl.
  assert (es_cabecera l = false) as Hc by (unfold es_cabecera; by rewrite Hl).
  rewrite linea_secuencia by done. rewrite Hl.
  destruct (id_actual _) eqn:Hid; [|done].
  unfold misma_secuencia. simpl. rewrite join_app. simpl.
  by rewrite append_nil_r.
Qed.

Lemma cargar_fasta_blank_line_witness :
  cargar_fasta_datos ([">A.1"; "AC"] ++ "  " :: ["GT"])
  = cargar_fasta_datos ([">A.1"; "AC"] ++ ["GT"]).
Proof. apply (cargar_fasta_blank_line [">A.1"; "AC"] "  " ["GT"]). reflexivity. Defined.

Lemma cargar_fasta_datos_canonico (archivo_fasta : list string)
    (r : SequenceRecord) :
  r ∈ cargar_fasta_datos archivo_fasta -> canonico (s_sequence_id r).
Proof.
  intros (pre & h & body & rest & _ & _ & _ & _ & ->)%cargar_fasta_datos_bloque.
  simpl. by apply (extraer_id_base_fixed (Str.tail (Str.strip h))).
Qed.

End MoreCargarFasta.

(** ** More on [cargar_dataset] *)

Section MoreCargarDataset.

(** X19: Every row of the joined frame has a canonical identifier, and with
    normalization no rank field of a row has a space. *)
Theorem cargar_dataset_rows_clean
    (archivo_taxon archivo_fasta : list string) (norm : bool)
    (df : DataFrame JoinedRecord) (j : JoinedRecord) :
  cargar_dataset archivo_taxon archivo_fasta norm = Ok df ->
  j ∈ rows df ->
  canonico (sequence_id j)
  /\ (norm = true ->
      sin_espacio (kingdom j) /\ sin_espacio (phylum j) /\ sin_espacio (class j)
      /\ sin_espacio (order j) /\ sin_espacio (family j) /\ sin_espacio (genus j)
      /\ sin_espacio (species j)).
Proof.
  intros ->%cargar_dataset_Ok. simpl.
  intros (s & l & Hs & Hl & _ & ->)%merge_rows_elem.
  unfold cargar_fasta, cargar_taxon in *.
  rewrite DataFrame_of_rows in Hs. rewrite DataFrame_of_rows in Hl.
  simpl. split.
  - by apply (cargar_fasta_datos_canonico archivo_fasta).
  - by apply (cargar_taxon_datos_sin_espacio archivo_taxon norm).
Qed.

Lemma cargar_dataset_rows_clean_witness :
  canonico "X1.1"
  /\ (true = true ->
      sin_espacio "animalia" /\ sin_espacio "" /\ sin_espacio "" /\ sin_espacio "" /\ sin_espacio ""
      /\ sin_espacio "" /\ sin_espacio "homo_sapiens").
Proof.
  apply (cargar_dataset_rows_clean taxon_ejemplo fasta_ejemplo true
           (mkFrame joined_columns
              (merge_rows (rows (cargar_fasta fasta_ejemplo))
                 (rows (cargar_taxon taxon_ejemplo true))))
           (mkJoined "X1.1" "ACGT" "animalia" "" "" "" "" "" "homo_sapiens")).
  - reflexivity.
  - vm_compute. left.
Defined.

Lemma matches_absent (right : list LineageRecord) (s : SequenceRecord) :
  s_sequence_id s ∉ map l_sequence_id right -> matches right s = [].
Proof.
  unfold matches. induction right as [|l right IH]; simpl; [done |].
  rewrite not_elem_of_cons. intros [Hl Hr].
  rewrite filter_cons_False by congruence. by apply IH.
Qed.

Lemma matches_NoDup (right : list LineageRecord) (s : SequenceRecord) :
  NoDup (map l_sequence_id right) -> length (matches right s) <= 1.
Proof.
  unfold matches. induction right as [|l right IH]; simpl; [lia |].
  intros [Hl Hnd]%NoDup_cons.
  destruct (decide (l_sequence_id l = s_sequence_id s)) as [Heq | Hne].
  - rewrite filter_cons_True by done. simpl.
    fold (matches right s). rewrite matches_absent; [simpl; lia |].
    by rewrite <- Heq.
  - rewrite filter_cons_False by done. by apply IH.
Qed.

Lemma merge_rows_length_NoDup left right :
  NoDup (map l_sequence_id right) ->
  length (merge_rows left right) <= length left.
Proof.
  intros Hnd. unfold merge_rows. induction left as [|s left IH]; simpl; [lia |].
  rewrite length_app, length_map. pose proof (matches_NoDup right s Hnd). lia.
Qed.

(** X20: The join never has more rows than the product of the two tables, and
    when no identifier occurs twice in the lineage table it has at most one
    row for each sequence row. *)
Theorem cargar_dataset_length
    (archivo_taxon archivo_fasta : list string) (norm : bool)
    (df : DataFrame JoinedRecord) :
  cargar_dataset archivo_taxon archivo_fasta norm = Ok df ->
  len df <= len (cargar_fasta archivo_fasta)
            * len (cargar_taxon archivo_taxon norm)
  /\ (NoDup (map l_sequence_id (rows (cargar_taxon archivo_taxon norm))) ->
      len df <= len (cargar_fasta archivo_fasta)).
Proof.
  intros ->%cargar_dataset_Ok. unfold len. simpl. split.
  - generalize (rows (cargar_taxon archivo_taxon norm)) as right.
    generalize (rows (cargar_fasta archivo_fasta)) as left.
    intros left right. unfold merge_rows.
    induction left as [|s left IH]; simpl; [lia |].
    rewrite length_app, length_map.
    pose proof (length_filter
                  (fun l => l_sequence_id l = s_sequence_id s) right).
    unfold matches in *. lia.
  - apply merge_rows_length_NoDup.
Qed.

Lemma cargar_dataset_length_witness :
  len (mkFrame joined_columns
         (merge_rows (rows (cargar_fasta fasta_ejemplo))
            (rows (cargar_taxon ["X1.1" +:+ tab +:+ "k__Animalia_1"] true))))
  <= len (cargar_fasta fasta_ejemplo).
Proof.
  apply (cargar_dataset_length ["X1.1" +:+ tab +:+ "k__Animalia_1"]
           fasta_ejemplo true).
  - reflexivity.
  - vm_compute. repeat constructor. set_solver.
Defined.

End MoreCargarDataset.

(** ** More on [calcular_estadisticas] *)

Section MoreCalcularEstadisticas.

Lemma con_columnas_iff (df : DataFrame JoinedRecord) :
  con_columnas df <->
  Forall (fun c => bool_decide (c ∈ columns df) = true) joined_columns.
Proof.
  unfold con_columnas. rewrite Forall_forall.
  by setoid_rewrite bool_decide_eq_true.
Qed.

(** What [calcular_estadisticas] does: it raises for the first label, in
    its reading order, that the frame lacks. *)
Lemma calcular_estadisticas_cases (df : DataFrame JoinedRecord) :
  calcular_estadisticas df
  = match primera_faltante df with
    | Some label => KeyError label
    | None =>
        Ok (mkEstadisticas (len df)
              (nunique (map sequence_id (rows df)))
              (nunique (map species (rows df)))
              (nunique (map genus (rows df)))
              (nunique (map family (rows df)))
              (nunique (map order (rows df)))
              (nunique (map class (rows df)))
              (nunique (map phylum (rows df)))
              (nunique (map kingdom (rows df)))
              (mean (longitudes_de df)) (median (longitudes_de df))
              (min (longitudes_de df)) (max (longitudes_de df))
              (std (longitudes_de df)))
    end.
Proof.
  unfold calcular_estadisticas, getitem, bind, primera_faltante, orden_lectura.
  cbn [find]. by repeat (case_bool_decide; cbn [negb]; [|done]).
Qed.

Lemma primera_faltante_None (df : DataFrame JoinedRecord) :
  primera_faltante df = None <-> con_columnas df.
Proof.
  rewrite con_columnas_iff. unfold primera_faltante, orden_lectura, joined_columns.
  rewrite !Forall_cons, Forall_nil. cbn [find].
  repeat (case_bool_decide; cbn [negb]; [|intuition discriminate]).
  intuition.
Qed.

(** X21: [calcular_estadisticas] returns exactly on the frames that have the
    nine columns; on another frame it raises [KeyError] with the first
    label, in the order it reads the columns, that the frame lacks. *)
Theorem calcular_estadisticas_KeyError (df : DataFrame JoinedRecord) :
  ((exists st, calcular_estadisticas df = Ok st) <-> con_columnas df)
  /\ (forall label,
        calcular_estadisticas df = KeyError label <->
        primera_faltante df = Some label).
Proof.
  rewrite <- primera_faltante_None, calcular_estadisticas_cases.
  destruct (primera_faltante df) as [c|]; split.
  - split; [by intros [st Hst] | done].
  - intros label. split; congruence.
  - split; [done | by eexists].
  - intros label. split; done.
Qed.

Lemma calcular_estadisticas_KeyError_witness :
  calcular_estadisticas (mkFrame ["dna_sequence"; "sequence_id"; "genus"] [])
  = KeyError "species".
Proof.
  apply (calcular_estadisticas_KeyError
           (mkFrame ["dna_sequence"; "sequence_id"; "genus"] [])).
  reflexivity.
Defined.

Lemma length_remove_dups (l : list string) :
  length (remove_dups l) <= length l.
Proof.
  induction l as [|x l IH]; simpl; [lia |].
  destruct (decide_rel _ _ _); simpl; lia.
Qed.

Lemma nunique_bounds {A} (campo : A -> string) (filas : list A) :
  nunique (map campo filas) <= length filas
  /\ (length filas <> 0 -> 1 <= nunique (map campo filas)).
Proof.
  unfold nunique. split.
  - etrans; [apply length_remove_dups |]. by rewrite length_map.
  - destruct filas as [|x filas]; [done |]. intros _.
    assert (campo x ∈ remove_dups (map campo (x :: filas))) as Hin.
    { apply elem_of_remove_dups. simpl. left. }
    destruct (remove_dups _); [by apply elem_of_nil in Hin | simpl; lia].
Qed.

(** X22: The summary counts the rows, and each count of distinct values is at
    most the number of rows and, on a frame with rows, at least 1. *)
Theorem calcular_estadisticas_counts (df : DataFrame JoinedRecord)
    (st : Estadisticas) :
  calcular_estadisticas df = Ok st ->
  total_registros st = length (rows df)
  /\ conteos_entre st (length (rows df)).
Proof.
  intros Hst.
  rewrite calcular_estadisticas_cases in Hst.
  destruct (primera_faltante df); [done |]. injection Hst as <-.
  split; [done |]. unfold conteos_entre. simpl.
  repeat (apply Forall_cons_2; [apply nunique_bounds |]).
  apply Forall_nil_2.
Qed.

Lemma calcular_estadisticas_counts_witness :
  total_registros (mkEstadisticas 2 2 1 1 1 1 1 1 1
                     (Num 3) (Num 3) (Num 2) (Num 4) (Raiz 2))
  = length (rows df_ejemplo)
  /\ conteos_entre (mkEstadisticas 2 2 1 1 1 1 1 1 1
                     (Num 3) (Num 3) (Num 2) (Num 4) (Raiz 2))
       (length (rows df_ejemplo)).
Proof.
  apply (calcular_estadisticas_counts df_ejemplo). vm_compute. reflexivity.
Defined.

End MoreCalcularEstadisticas.

(** ** The length statistics *)

Section Longitudes.

Local Open Scope Z_scope.

Lemma foldr_min_spec x (l : list Z) :
  foldr Z.min x l ∈ x :: l /\ forall y, y ∈ x :: l -> foldr Z.min x l <= y.
Proof.
  induction l as [|a l [Hin Hle]]; simpl.
  - split; [left |]. intros y ->%list_elem_of_singleton. lia.
  - split.
    + destruct (Z.min_spec a (foldr Z.min x l)) as [[_ ->] | [_ ->]].
      * right. left.
      * apply elem_of_cons in Hin as [-> | Hin]; [left | right; by right].
    + intros y Hy. assert (y = a \/ y ∈ x :: l) as [-> | Hy'].
      { rewrite !elem_of_cons in *. tauto. }
      * lia.
      * specialize (Hle y Hy'). lia.
Qed.

Lemma foldr_max_spec x (l : list Z) :
  foldr Z.max x l ∈ x :: l /\ forall y, y ∈ x :: l -> y <= foldr Z.max x l.
Proof.
  induction l as [|a l [Hin Hle]]; simpl.
  - split; [left |]. intros y ->%list_elem_of_singleton. lia.
  - split.
    + destruct (Z.max_spec a (foldr Z.max x l)) as [[_ ->] | [_ ->]].
      * apply elem_of_cons in Hin as [-> | Hin]; [left | right; by right].
      * right. left.
    + intros y Hy. assert (y = a \/ y ∈ x :: l) as [-> | Hy'].
      { rewrite !elem_of_cons in *. tauto. }
      * lia.
      * specialize (Hle y Hy'). lia.
Qed.

Lemma suma_bounds (l : list Z) lo hi :
  (forall x, x ∈ l -> lo <= x <= hi) ->
  lo * Z.of_nat (length l) <= suma l <= hi * Z.of_nat (length l).
Proof.
  unfold suma. induction l as [|a l IH]; intros H; simpl; [lia |].
  assert (lo <= a <= hi) by (apply H; left).
  assert (forall x, x ∈ l -> lo <= x <= hi) as H' by (intros; apply H; by right).
  specialize (IH H'). lia.
Qed.

Lemma promedio_bounds (l : list Z) lo hi :
  l <> [] -> (forall x, x ∈ l -> lo <= x <= hi) ->
  (inject_Z lo <= promedio l)%Q /\ (promedio l <= inject_Z hi)%Q.
Proof.
  intros Hl H. pose proof (suma_bounds l lo hi H) as Hs.
  unfold promedio. rewrite Qred_correct. unfold Qle. simpl.
  assert (Z.pos (Pos.of_nat (length l)) = Z.of_nat (length l)) as ->.
  { destruct l; [done |]. simpl. lia. }
  lia.
Qed.

Lemma insertar_perm x (l : list Z) : insertar x l ≡ₚ x :: l.
Proof.
  induction l as [|y l IH]; simpl; [done |].
  destruct (x <=? y); [done |]. rewrite IH. apply Permutation_swap.
Qed.

Lemma ordenar_perm (l : list Z) : ordenar l ≡ₚ l.
Proof.
  unfold ordenar. induction l as [|x l IH]; simpl; [done |].
  by rewrite insertar_perm, IH.
Qed.

Lemma nth_ordenar (l : list Z) (i : nat) :
  (i < length l)%nat -> nth i (ordenar l) 0 ∈ l.
Proof.
  intros Hi. apply (elem_of_Permutation_proper _ _ _ (ordenar_perm l)).
  apply list_elem_of_In, nth_In.
  by rewrite (Permutation_length (ordenar_perm l)).
Qed.

Lemma median_bounds (l : list Z) lo hi :
  l <> [] -> (forall x, x ∈ l -> lo <= x <= hi) ->
  exists md, median l = Num md
             /\ (inject_Z lo <= md)%Q /\ (md <= inject_Z hi)%Q.
Proof.
  intros Hl H. unfold median.
  destruct (length l) as [|n] eqn:Hn; [by destruct l |].
  assert (S n / 2 < length l)%nat as H2.
  { rewrite Hn. apply Nat.div_lt; lia. }
  assert (S n / 2 - 1 < length l)%nat as H1 by lia.
  pose proof (H _ (nth_ordenar l _ H1)) as Ha.
  pose proof (H _ (nth_ordenar l _ H2)) as Hb.
  destruct (Nat.even (S n)).
  - eexists. split; [done |]. rewrite Qred_correct. unfold Qle.
    cbn [Qnum Qden inject_Z]. lia.
  - eexists. split; [done |]. unfold Qle. cbn [Qnum Qden inject_Z]. lia.
Qed.

Lemma min_max_spec (l : list Z) :
  l <> [] ->
  exists lo hi, min l = Num (inject_Z lo) /\ max l = Num (inject_Z hi)
                /\ extremos l lo hi.
Proof.
  destruct l as [|x l]; [done |]. intros _.
  destruct (foldr_min_spec x l) as [Hmin Hle].
  destruct (foldr_max_spec x l) as [Hmax Hge].
  exists (foldr Z.min x l), (foldr Z.max x l). repeat split; auto.
Qed.

Lemma str_len_nonneg (serie : list string) x : x ∈ str_len serie -> 0 <= x.
Proof. unfold str_len. intros (s & -> & _)%list_elem_of_fmap. lia. Qed.

End Longitudes.

Section MoreEstadisticas.

(** X23: On a frame with rows, the minimum and the maximum are the least and
    the greatest sequence length, no length is negative, and the mean and
    the median lie between the minimum and the maximum. *)
Theorem calcular_estadisticas_order (df : DataFrame JoinedRecord)
    (st : Estadisticas) :
  calcular_estadisticas df = Ok st -> rows df <> [] ->
  exists (lo hi : Z) (av md : Q),
    longitud_min st = Num (inject_Z lo)
    /\ longitud_max st = Num (inject_Z hi)
    /\ longitud_promedio st = Num av
    /\ longitud_mediana st = Num md
    /\ extremos (longitudes_de df) lo hi
    /\ (0 <= lo)%Z
    /\ (inject_Z lo <= av)%Q /\ (av <= inject_Z hi)%Q
    /\ (inject_Z lo <= md)%Q /\ (md <= inject_Z hi)%Q.
Proof.
  intros Hst Hrows. rewrite calcular_estadisticas_cases in Hst.
  destruct (primera_faltante df); [done |]. injection Hst as <-. simpl.
  assert (longitudes_de df <> []) as Hl.
  { unfold longitudes_de, str_len. by destruct (rows df). }
  destruct (min_max_spec _ Hl) as (lo & hi & -> & -> & Hext).
  destruct Hext as (Hlo & Hhi & Hall).
  destruct (promedio_bounds _ lo hi Hl Hall) as [Hav1 Hav2].
  destruct (median_bounds _ lo hi Hl Hall) as (md & -> & Hmd1 & Hmd2).
  exists lo, hi, (promedio (longitudes_de df)), md.
  assert (mean (longitudes_de df) = Num (promedio (longitudes_de df))) as ->.
  { unfold mean. by destruct (longitudes_de df). }
  do 4 (split; [done |]). split; [done |].
  split; [by apply (str_len_nonneg _ _ Hlo) | done].
Qed.

Lemma calcular_estadisticas_order_witness :
  exists (lo hi : Z) (av md : Q),
    Num 2 = Num (inject_Z lo) /\ Num 4 = Num (inject_Z hi)
    /\ Num 3 = Num av /\ Num 3 = Num md
    /\ extremos (longitudes_de df_ejemplo) lo hi
    /\ (0 <= lo)%Z
    /\ (inject_Z lo <= av)%Q /\ (av <= inject_Z hi)%Q
    /\ (inject_Z lo <= md)%Q /\ (md <= inject_Z hi)%Q.
Proof.
  apply (calcular_estadisticas_order df_ejemplo
           (mkEstadisticas 2 2 1 1 1 1 1 1 1
              (Num 3) (Num 3) (Num 2) (Num 4) (Raiz 2))).
  - vm_compute. reflexivity.
  - discriminate.
Defined.

End MoreEstadisticas.

(** ** The statistics and the order of the rows *)

Section Permutaciones.

Local Open Scope Z_scope.

Lemma insertar_sorted x (l : list Z) :
  Sorted Z.le l -> Sorted Z.le (insertar x l).
Proof.
  induction l as [|y l IH]; simpl; intros Hl.
  - by repeat constructor.
  - destruct (Z.leb_spec x y).
    + constructor; [done | by constructor].
    + apply Sorted_inv in Hl as [Hl Hhd]. constructor; [by apply IH |].
      destruct l as [|z l]; simpl.
      * constructor. lia.
      * apply HdRel_inv in Hhd. destruct (x <=? z); constructor; lia.
Qed.

Lemma ordenar_sorted (l : list Z) : Sorted Z.le (ordenar l).
Proof.
  unfold ordenar. induction l as [|x l IH]; simpl; [constructor |].
  by apply insertar_sorted.
Qed.

Lemma ordenar_Permutation (l l' : list Z) : l ≡ₚ l' -> ordenar l = ordenar l'.
Proof.
  intros Hp. apply (Sorted_unique Z.le); [apply ordenar_sorted.. |].
  by rewrite !ordenar_perm.
Qed.

Lemma suma_Permutation (l l' : list Z) : l ≡ₚ l' -> suma l = suma l'.
Proof.
  unfold suma. induction 1; simpl; lia.
Qed.

Lemma promedio_Permutation (l l' : list Z) :
  l ≡ₚ l' -> promedio l = promedio l'.
Proof.
  intros Hp. unfold promedio.
  by rewrite (suma_Permutation _ _ Hp), (Permutation_length Hp).
Qed.

Lemma mean_Permutation (l l' : list Z) : l ≡ₚ l' -> mean l = mean l'.
Proof.
  intros Hp. unfold mean. rewrite (promedio_Permutation _ _ Hp).
  destruct l, l'; try done.
  - by apply Permutation_nil_cons in Hp.
  - symmetry in Hp. by apply Permutation_nil_cons in Hp.
Qed.

Lemma median_Permutation (l l' : list Z) : l ≡ₚ l' -> median l = median l'.
Proof.
  intros Hp. unfold median.
  by rewrite (ordenar_Permutation _ _ Hp), (Permutation_length Hp).
Qed.

Lemma min_Permutation (l l' : list Z) : l ≡ₚ l' -> min l = min l'.
Proof.
  intros Hp. unfold min. destruct l as [|x l], l' as [|x' l']; try done.
  - by apply Permutation_nil_cons in Hp.
  - symmetry in Hp. by apply Permutation_nil_cons in Hp.
  - destruct (foldr_min_spec x l) as [Hin Hle].
    destruct (foldr_min_spec x' l') as [Hin' Hle'].
    rewrite Hp in Hin. rewrite <- Hp in Hin'.
    specialize (Hle _ Hin'). specialize (Hle' _ Hin).
    do 2 f_equal. lia.
Qed.

Lemma max_Permutation (l l' : list Z) : l ≡ₚ l' -> max l = max l'.
Proof.
  intros Hp. unfold max. destruct l as [|x l], l' as [|x' l']; try done.
  - by apply Permutation_nil_cons in Hp.
  - symmetry in Hp. by apply Permutation_nil_cons in Hp.
  - destruct (foldr_max_spec x l) as [Hin Hle].
    destruct (foldr_max_spec x' l') as [Hin' Hle'].
    rewrite Hp in Hin. rewrite <- Hp in Hin'.
    specialize (Hle _ Hin'). specialize (Hle' _ Hin).
    do 2 f_equal. lia.
Qed.

Lemma nunique_Permutation (l l' : list string) :
  l ≡ₚ l' -> nunique l = nunique l'.
Proof.
  intros Hp. unfold nunique. apply Permutation_length.
  apply NoDup_Permutation; [apply NoDup_remove_dups.. |].
  intros x. by rewrite !elem_of_remove_dups, Hp.
Qed.

(** X24: The counts, the mean, the median, the minimum and the maximum do
    not depend on the order of the rows: of two frames with the same
    columns and the same rows in any order, one raises when the other
    does, with the same label, and their summaries agree on every entry
    but the standard deviation. *)
Theorem calcular_estadisticas_Permutation (df df' : DataFrame JoinedRecord) :
  columns df = columns df' -> rows df ≡ₚ rows df' ->
  (forall label,
     calcular_estadisticas df = KeyError label ->
     calcular_estadisticas df' = KeyError label)
  /\ (forall st,
        calcular_estadisticas df = Ok st ->
        exists st',
          calcular_estadisticas df' = Ok st' /\ igual_salvo_std st st').
Proof.
  intros Hc Hp. rewrite !calcular_estadisticas_cases.
  unfold primera_faltante. rewrite Hc.
  destruct (find _ _); [split; [done | by intros st] |].
  split; [done |]. intros st [= <-]. eexists. split; [done |].
  assert (longitudes_de df ≡ₚ longitudes_de df') as Hl.
  { unfold longitudes_de, str_len. by apply Permutation_map, Permutation_map. }
  unfold igual_salvo_std, len. simpl.
  rewrite (Permutation_length Hp).
  rewrite (mean_Permutation _ _ Hl), (median_Permutation _ _ Hl),
    (min_Permutation _ _ Hl), (max_Permutation _ _ Hl).
  rewrite (nunique_Permutation _ _ (Permutation_map sequence_id Hp)),
    (nunique_Permutation _ _ (Permutation_map species Hp)),
    (nunique_Permutation _ _ (Permutation_map genus Hp)),
    (nunique_Permutation _ _ (Permutation_map family Hp)),
    (nunique_Permutation _ _ (Permutation_map order Hp)),
    (nunique_Permutation _ _ (Permutation_map class Hp)),
    (nunique_Permutation _ _ (Permutation_map phylum Hp)),
    (nunique_Permutation _ _ (Permutation_map kingdom Hp)).
  by repeat split.
Qed.

Lemma calcular_estadisticas_Permutation_witness :
  exists st',
    calcular_estadisticas
      (mkFrame joined_columns
         [fila_ejemplo "B.1" "ACGT"; fila_ejemplo "A.1" "AC"]) = Ok st'
    /\ igual_salvo_std
         (mkEstadisticas 2 2 1 1 1 1 1 1 1
            (Num 3) (Num 3) (Num 2) (Num 4) (Raiz 2)) st'.
Proof.
  apply (calcular_estadisticas_Permutation df_ejemplo
           (mkFrame joined_columns
              [fila_ejemplo "B.1" "ACGT"; fila_ejemplo "A.1" "AC"])).
  - reflexivity.
  - apply Permutation_swap.
  - vm_compute. reflexivity.
Defined.

End Permutaciones.

(** ** Sequences of one length *)

Section UnaLongitud.

Local Open Scope Z_scope.

Variable c : Z.
Variable l : list Z.
Hypothesis Hne : l <> [].
Hypothesis Hall : forall x, x ∈ l -> x = c.

Lemma suma_constante : suma l = c * Z.of_nat (length l).
Proof.
  clear Hne. unfold suma. induction l as [|a l' IH]; simpl; [lia |].
  rewrite (Hall a) by left. rewrite IH; [lia |]. intros x Hx. apply Hall. by right.
Qed.

Lemma promedio_constante : promedio l = inject_Z c.
Proof.
  unfold promedio. rewrite <- inject_Z_Qred. apply Qred_complete.
  unfold Qeq. cbn [Qnum Qden inject_Z]. rewrite suma_constante.
  assert (Z.pos (Pos.of_nat (length l)) = Z.of_nat (length l)) as ->.
  { destruct l; [done |]. simpl. lia. }
  lia.
Qed.

Lemma mean_constante : mean l = Num (inject_Z c).
Proof. unfold mean. rewrite promedio_constante. by destruct l. Qed.

Lemma median_constante : median l = Num (inject_Z c).
Proof.
  unfold median. destruct (length l) as [|n] eqn:Hn; [by destruct l |].
  assert (S n / 2 < length l)%nat as H2.
  { rewrite Hn. apply Nat.div_lt; lia. }
  assert (S n / 2 - 1 < length l)%nat as H1 by lia.
  rewrite (Hall _ (nth_ordenar l _ H1)), (Hall _ (nth_ordenar l _ H2)).
  destruct (Nat.even (S n)); [|done]. f_equal.
  rewrite <- inject_Z_Qred. apply Qred_complete.
  unfold Qeq. cbn [Qnum Qden inject_Z]. lia.
Qed.

Lemma min_max_constante :
  min l = Num (inject_Z c) /\ max l = Num (inject_Z c).
Proof.
  unfold min, max. destruct l as [|x l']; [done |].
  destruct (foldr_min_spec x l') as [Hmin _].
  destruct (foldr_max_spec x l') as [Hmax _].
  by rewrite (Hall _ Hmin), (Hall _ Hmax).
Qed.

Lemma desviaciones_constante : (desviaciones l == 0)%Q.
Proof.
  unfold desviaciones. rewrite promedio_constante. clear Hne.
  induction l as [|a l' IH]; simpl; [reflexivity |].
  rewrite (Hall a) by left. rewrite IH; [ring |].
  intros x Hx. apply Hall. by right.
Qed.

Lemma std_constante : (2 <= length l)%nat -> std l = Raiz 0.
Proof.
  intros Hn. unfold std. destruct (Nat.leb_spec (length l) 1); [lia |].
  f_equal. change 0%Q with (Qred 0). apply Qred_complete.
  rewrite desviaciones_constante. unfold Qdiv. ring.
Qed.

End UnaLongitud.

(** X25: When every sequence has the same length, the mean, the median, the
    minimum and the maximum are that length, and with two rows or more the
    standard deviation is 0. *)
Theorem calcular_estadisticas_one_length (df : DataFrame JoinedRecord)
    (st : Estadisticas) (c : nat) :
  calcular_estadisticas df = Ok st -> rows df <> [] ->
  (forall r, r ∈ rows df -> String.length (dna_sequence r) = c) ->
  longitud_promedio st = Num (inject_Z (Z.of_nat c))
  /\ longitud_mediana st = Num (inject_Z (Z.of_nat c))
  /\ longitud_min st = Num (inject_Z (Z.of_nat c))
  /\ longitud_max st = Num (inject_Z (Z.of_nat c))
  /\ (2 <= length (rows df) -> longitud_std st = Raiz 0).
Proof.
  intros Hst Hrows Hc. rewrite calcular_estadisticas_cases in Hst.
  destruct (primera_faltante df); [done |]. injection Hst as <-. simpl.
  assert (longitudes_de df <> []) as Hl.
  { unfold longitudes_de, str_len. by destruct (rows df). }
  assert (forall x, x ∈ longitudes_de df -> x = Z.of_nat c) as Hall.
  { unfold longitudes_de, str_len. intros x (s & -> & Hs)%list_elem_of_fmap.
    apply list_elem_of_fmap in Hs as (r & -> & Hr). by rewrite (Hc r Hr). }
  destruct (min_max_constante _ _ Hl Hall) as [Hmin Hmax].
  split; [by apply mean_constante |].
  split; [by apply median_constante |].
  split; [done |]. split; [done |].
  intros Hn. apply (std_constante (Z.of_nat c)); try done.
  unfold longitudes_de, str_len. by rewrite !length_map.
Qed.

Lemma calcular_estadisticas_one_length_witness :
  Num 4 = Num (inject_Z (Z.of_nat 4))
  /\ Num 4 = Num (inject_Z (Z.of_nat 4))
  /\ Num 4 = Num (inject_Z (Z.of_nat 4))
  /\ Num 4 = Num (inject_Z (Z.of_nat 4))
  /\ (2 <= length [fila_ejemplo "A.1" "ACGT"; fila_ejemplo "B.1" "TTGA"] ->
      Raiz 0 = Raiz 0).
Proof.
  apply (calcular_estadisticas_one_length
           (mkFrame joined_columns
              [fila_ejemplo "A.1" "ACGT"; fila_ejemplo "B.1" "TTGA"])
           (mkEstadisticas 2 2 1 1 1 1 1 1 1
              (Num 4) (Num 4) (Num 4) (Num 4) (Raiz 0)) 4).
  - vm_compute. reflexivity.
  - discriminate.
  - intros r Hr. simpl in Hr.
    apply elem_of_cons in Hr as [-> | Hr]; [reflexivity |].
    apply list_elem_of_singleton in Hr as ->. reflexivity.
Defined.
